(** * The streaming console of the OCR front end

    A shallow embedding of [CenterClient] (the client page of
    [app/center/[centerId]]): the two handlers [runAnalyze] and [runExport],
    the server-sent-event loop both of them run over the response body, and the
    React state they update ([logs], [response], [finalLinks], [error] and the
    ref [streamingReceivedRef]).

    Text is a [string] of bytes (the UTF-8 encoding of the JavaScript string);
    a JSON value is a [JValue]; [undefined] is [None].  The engine's built-ins
    that the handlers call ([JSON.parse], [String], [JSON.stringify] and
    [Date.prototype.toLocaleTimeString]) are Variables of the sections below,
    so every general statement holds whatever they return; [Sample] gives an
    executable instance on which the scenarios are run.

    A handler gives way at each [await], and the two buttons do not lock each
    other out, so a session of [runAnalyze] and one of [runExport] can be open
    at the same time.  [runAnalyze] and [runExport] below are a run of a
    handler on its own; [Lifetime] has the steps a run is made of, which
    statements about what holds at every moment are written in. *)

From Stdlib Require Import String Ascii List Bool Arith Lia QArith DecimalString.
From Stdlib Require Import ZArith Permutation.
Import ListNotations.
Close Scope Q_scope.
Open Scope nat_scope.
Open Scope string_scope.
Open Scope list_scope.

(** ** Text: the string methods the handlers use *)

Module Text.

(** The line feed and the double quote, which a literal cannot hold. *)
Definition LF : string := String (ascii_of_nat 10) "".
Definition DQ : string := String (ascii_of_nat 34) "".

Definition bytes (codes : list nat) : string :=
  fold_right (fun n s => String (ascii_of_nat n) s) "" codes.

(** [s.startsWith(p)]. *)
Fixpoint startsWith (p s : string) : bool :=
  match p, s with
  | EmptyString, _ => true
  | String _ _, EmptyString => false
  | String a p', String b s' => Ascii.eqb a b && startsWith p' s'
  end.

(** [s.slice(n)] for [0 <= n]: the text from position [n] on. *)
Fixpoint slice (n : nat) (s : string) : string :=
  match n, s with
  | O, _ => s
  | S _, EmptyString => EmptyString
  | S k, String _ s' => slice k s'
  end.

Fixpoint rev_onto (s acc : string) : string :=
  match s with
  | EmptyString => acc
  | String c s' => rev_onto s' (String c acc)
  end.

Definition rev (s : string) : string := rev_onto s "".

(** What [trim] removes: ECMAScript's WhiteSpace and LineTerminator code
    points, each in its UTF-8 encoding. *)
Definition white_space : list string :=
  map bytes
    ([ [9]; [10]; [11]; [12]; [13]; [32];
       [194; 160];                       (* U+00A0 *)
       [225; 154; 128] ]                 (* U+1680 *)
     ++ map (fun k => [226; 128; 128 + k]) (seq 0 11)   (* U+2000 .. U+200A *)
     ++ [ [226; 128; 168]; [226; 128; 169];             (* U+2028, U+2029 *)
          [226; 128; 175];               (* U+202F *)
          [226; 129; 159];               (* U+205F *)
          [227; 128; 128];               (* U+3000 *)
          [239; 187; 191] ]).            (* U+FEFF *)

(** The length of the blank [s] starts with, if any. *)
Definition leading_blank (blanks : list string) (s : string) : option nat :=
  option_map String.length (find (fun w => startsWith w s) blanks).

Fixpoint trim_start_with (blanks : list string) (fuel : nat) (s : string) : string :=
  match fuel with
  | O => s
  | S fuel' =>
      match leading_blank blanks s with
      | Some n => trim_start_with blanks fuel' (slice n s)
      | None => s
      end
  end.

Definition trimStart (s : string) : string :=
  trim_start_with white_space (String.length s) s.

Definition trimEnd (s : string) : string :=
  rev (trim_start_with (map rev white_space) (String.length s) (rev s)).

(** [s.trim()]. *)
Definition trim (s : string) : string := trimEnd (trimStart s).

(** Puts [c] in front of the first piece of a split. *)
Definition cons_first (c : ascii) (parts : list string) : list string :=
  match parts with
  | [] => [String c ""]
  | p :: ps => String c p :: ps
  end.

(** [s.split(sep)] for a separator that is not empty, as [split_on sep 0 s]:
    the pieces between the occurrences of [sep], found from the left and not
    overlapping.  [skip] counts the bytes of a separator just found that are
    still to be passed over. *)
Fixpoint split_on (sep : string) (skip : nat) (s : string) : list string :=
  match s with
  | EmptyString => [""]
  | String c s' =>
      match skip with
      | S k => split_on sep k s'
      | O =>
          if startsWith sep s
          then "" :: split_on sep (String.length sep - 1) s'
          else cons_first c (split_on sep 0 s')
      end
  end.

Definition split (sep s : string) : list string := split_on sep 0 s.

End Text.

(** ** Values: what [JSON.parse] returns and the handlers inspect *)

Module JS.

#[local] Set Warnings "-register-all".

Inductive JValue : Type :=
| JNull
| JBool (b : bool)
| JNumber (q : Q)
| JString (s : string)
| JArray (items : list JValue)
| JObject (fields : list (string * JValue)).

(** A JavaScript value as the handlers see it: [None] is [undefined]. *)
Definition Value : Type := option JValue.

(** The value of [if (v)], [v ? a : b] and [!v]. *)
Definition truthy (v : Value) : bool :=
  match v with
  | None | Some JNull => false
  | Some (JBool b) => b
  | Some (JNumber q) => negb (Qeq_bool q 0)
  | Some (JString s) => negb (String.eqb s "")
  | Some (JArray _) | Some (JObject _) => true
  end.

(** [typeof v === "object" && v !== null]: an array passes it too. *)
Definition is_object (v : Value) : bool :=
  match v with
  | Some (JArray _) | Some (JObject _) => true
  | _ => false
  end.

(** [v === w] for string [w]. *)
Definition is_string (w : string) (v : Value) : bool :=
  match v with
  | Some (JString s) => String.eqb s w
  | _ => false
  end.

Fixpoint lookup (k : string) (fields : list (string * JValue)) : Value :=
  match fields with
  | [] => None
  | (k', v) :: rest => if String.eqb k' k then Some v else lookup k rest
  end.

(** [obj[k] = v] on the fields of an object: an existing key keeps its place. *)
Fixpoint set_field (k : string) (v : JValue) (fields : list (string * JValue))
  : list (string * JValue) :=
  match fields with
  | [] => [(k, v)]
  | (k', v') :: rest =>
      if String.eqb k' k then (k, v) :: rest else (k', v') :: set_field k v rest
  end.

Definition index_key (i : nat) : string := NilZero.string_of_uint (Nat.to_uint i).

(** The own enumerable string-keyed properties of a value, which is what
    [{...v}] copies: the fields of an object, the elements of an array under
    their indices.  (The handlers spread nothing else: [response] only ever
    holds a value that passed [is_object], or a spread.) *)
Definition own_props (v : JValue) : list (string * JValue) :=
  match v with
  | JObject fields => fields
  | JArray items => combine (map index_key (seq 0 (length items))) items
  | _ => []
  end.

(** [v.k] for the keys the handlers read ([event], [data], [debug_logs] and
    the two url keys, none of which a prototype defines) on a value that is
    neither [null] nor [undefined]. *)
Definition get (v : JValue) (k : string) : Value := lookup k (own_props v).

Definition prop (v : Value) (k : string) : Value :=
  match v with
  | Some o => get o k
  | None => None
  end.

(** [v.k] when it is truthy. *)
Definition truthy_prop (v : Value) (k : string) : option JValue :=
  if truthy (prop v k) then prop v k else None.

(** [{...prev, [k]: v}]. *)
Definition spread_with (prev : JValue) (k : string) (v : JValue) : JValue :=
  JObject (set_field k v (own_props prev)).

(** [a === b] where [b] comes out of the payload just parsed and [a] out of an
    earlier one: primitives compare by value; an object or array is identical
    only to itself, and two calls of [JSON.parse] share no object. *)
Definition strict_eq (a b : JValue) : bool :=
  match a, b with
  | JNull, JNull => true
  | JBool x, JBool y => Bool.eqb x y
  | JNumber x, JNumber y => Qeq_bool x y
  | JString x, JString y => String.eqb x y
  | _, _ => false
  end.

(** [items.filter((x): x is string => typeof x === "string")]. *)
Fixpoint string_items (items : list JValue) : list string :=
  match items with
  | [] => []
  | JString s :: rest => s :: string_items rest
  | _ :: rest => string_items rest
  end.

(** Whether [String(v)] throws.  On an object it calls [toString], which a
    parsed object inherits unless it has a field of that name: the field then
    holds no function, and [valueOf], whether inherited or not, yields no
    primitive either.  On an array it joins [String] of the elements other
    than [null]. *)
Fixpoint String_throws_on (v : JValue) : bool :=
  match v with
  | JObject fields => existsb (fun kv => String.eqb (fst kv) "toString") fields
  | JArray items => existsb String_throws_on items
  | _ => false
  end.

Definition String_throws (v : Value) : bool :=
  match v with
  | Some x => String_throws_on x
  | None => false
  end.

End JS.

Import Text JS.

(** ** The component's state and its handlers *)

(** A [FinalLink]; [url] is whatever truthy value the payload carried under
    the url key (a string, by the declared type). *)
Record FinalLink : Type := mkLink { name : string; url : JValue }.

(** The hooks of [CenterClient] that the two handlers touch.  [clock] counts
    the readings of the wall clock so far and [fetched] lists the endpoints
    requested so far; both belong to the environment and are kept here to
    thread them through the handlers. *)
Record State : Type := mkState {
  logs : list string;
  response : Value;              (* null is None *)
  finalLinks : list FinalLink;
  error : option string;
  analyzing : bool;
  exporting : bool;
  streamingReceived : bool;      (* streamingReceivedRef.current *)
  clock : nat;
  fetched : list string
}.

(** The state [CenterClient] mounts with. *)
Definition mount : State := mkState [] None [] None false false false 0 [].

Definition setLogs (f : list string -> list string) (st : State) : State :=
  mkState (f (logs st)) (response st) (finalLinks st) (error st) (analyzing st)
    (exporting st) (streamingReceived st) (clock st) (fetched st).

Definition setResponse (f : Value -> Value) (st : State) : State :=
  mkState (logs st) (f (response st)) (finalLinks st) (error st) (analyzing st)
    (exporting st) (streamingReceived st) (clock st) (fetched st).

Definition setFinalLinks (f : list FinalLink -> list FinalLink) (st : State) : State :=
  mkState (logs st) (response st) (f (finalLinks st)) (error st) (analyzing st)
    (exporting st) (streamingReceived st) (clock st) (fetched st).

Definition setError (e : option string) (st : State) : State :=
  mkState (logs st) (response st) (finalLinks st) e (analyzing st)
    (exporting st) (streamingReceived st) (clock st) (fetched st).

Definition setAnalyzing (b : bool) (st : State) : State :=
  mkState (logs st) (response st) (finalLinks st) (error st) b
    (exporting st) (streamingReceived st) (clock st) (fetched st).

Definition setExporting (b : bool) (st : State) : State :=
  mkState (logs st) (response st) (finalLinks st) (error st) (analyzing st)
    b (streamingReceived st) (clock st) (fetched st).

Definition setStreamingReceived (b : bool) (st : State) : State :=
  mkState (logs st) (response st) (finalLinks st) (error st) (analyzing st)
    (exporting st) b (clock st) (fetched st).

Definition tick (st : State) : State :=
  mkState (logs st) (response st) (finalLinks st) (error st) (analyzing st)
    (exporting st) (streamingReceived st) (S (clock st)) (fetched st).

Definition fetch (endpoint : string) (st : State) : State :=
  mkState (logs st) (response st) (finalLinks st) (error st) (analyzing st)
    (exporting st) (streamingReceived st) (clock st) (fetched st ++ [endpoint]).

(** The session a handler runs: the two copies of the event loop differ in
    the [result] branch and in the line logged on [done]. *)
Inductive Phase : Type := Analyzing | Exporting.

(** One answer of [reader.read()] before the stream ends: a chunk, given as
    the text [decoder.decode(value, {stream: true})] makes of it, or a
    rejection. *)
Inductive Read : Type :=
| Chunk (text : string)
| ReadError (message : string).

(** What [fetch] comes back with. *)
Inductive Fetched : Type :=
| Rejected (message : string)                  (* fetch itself throws *)
| NotOk (status statusText text : string)      (* !res.ok *)
| NoBody                                       (* res.body?.getReader() is undefined *)
| Body (reads : list Read).                    (* the reads, then {done: true} *)

Definition msg_no_center : string := "センターIDが指定されていません。".
Definition msg_no_files : string := "OCR対象ファイルを選択してください。".
Definition msg_analyze_started : string := "解析を開始しました".
Definition msg_analyze_done : string := "バックエンド処理が完了しました".
Definition msg_analyze_failed : string := "エラーが発生しました".
Definition msg_no_result : string := "解析結果がありません。".
Definition msg_export_started : string := "依頼書スプレッドシートの生成を開始します".
Definition msg_export_done : string := "スプレッドシートの生成が完了しました".
Definition msg_export_failed : string := "スプレッドシート生成中にエラーが発生しました".
Definition msg_no_stream : string := "レスポンスのストリームが取得できませんでした".
Definition name_ocr_link : string := "OCR結果のスプレッドシート".
Definition name_output_link : string := "メーカーごとの各種依頼書スプレッドシート".
Definition analyze_endpoint : string := "/orders/process/stream".
Definition export_endpoint : string := "/orders/export/stream".

Definition done_message (ph : Phase) : string :=
  match ph with
  | Analyzing => msg_analyze_done
  | Exporting => msg_export_done
  end.

(** The line [pushLog] makes of a message, given the time of day. *)
Definition stamp (time message : string) : string :=
  ("[" ++ time ++ "] " ++ message)%string.

Module Console.

Section Builtins.

(** [JSON.parse]: [None] when it throws. *)
Variable JSON_parse : string -> option JValue.
(** [String(v)] where it returns ([String_throws] says where it does not),
    and what a template literal makes of [JSON.stringify(v)]. *)
Variable String_ : Value -> string.
Variable JSON_stringify : Value -> string.
(** [new Date().toLocaleTimeString()] at the n-th reading of the clock. *)
Variable toLocaleTimeString : nat -> string.

Definition pushLog (message : string) (st : State) : State :=
  let line := stamp (toLocaleTimeString (clock st)) message in
  setLogs (fun prev => prev ++ [line]) (tick st).

(** The tail of both [result] branches: the payload's [debug_logs], unless a
    [dbg] event has set the ref. *)
Definition append_debug_logs (data : Value) (st : State) : State :=
  if negb (streamingReceived st) then
    match prop data "debug_logs" with
    | Some (JArray maybeLogs) =>
        let stringLogs := string_items maybeLogs in
        match stringLogs with
        | [] => st
        | _ => setLogs (fun prev => prev ++ map (fun ln => ("[BE] " ++ ln)%string) stringLogs) st
        end
    | _ => st
    end
  else st.

Definition add_link (nm : string) (u : JValue) (prev : list FinalLink) : list FinalLink :=
  prev ++ [mkLink nm u].

(** [runAnalyze], the branch [ev === "result"]. *)
Definition analyze_result (data : Value) (st : State) : State :=
  if is_object data then
    let st := setResponse (fun _ => data) st in
    let st :=
      match truthy_prop data "ocr_snapshot_url" with
      | Some u => setFinalLinks (add_link name_ocr_link u) st
      | None => st
      end in
    let st :=
      match truthy_prop data "output_spreadsheet_url" with
      | Some u => setFinalLinks (add_link name_output_link u) st
      | None => st
      end in
    append_debug_logs data st
  else st.

(** [runExport], the branch [ev === "result"]. *)
Definition export_result (data : Value) (st : State) : State :=
  if is_object data then
    let st :=
      match truthy_prop data "output_spreadsheet_url" with
      | Some u =>
          let st :=
            setResponse
              (fun prev =>
                 match prev with
                 | Some p =>
                     if truthy prev
                     then Some (spread_with p "output_spreadsheet_url" u)
                     else prev
                 | None => prev
                 end) st in
          setFinalLinks
            (fun prev =>
               let exists_ := existsb (fun item => strict_eq (url item) u) prev in
               if exists_ then prev else add_link name_output_link u prev) st
      | None => st
      end in
    append_debug_logs data st
  else st.

Definition on_result (ph : Phase) : Value -> State -> State :=
  match ph with
  | Analyzing => analyze_result
  | Exporting => export_result
  end.

(** The body of the [try] once [JSON.parse] has returned, on an envelope on
    which [String] returns where the branch calls it: the new state, and
    whether the branch ran [finished = true; break]. *)
Definition on_event (ph : Phase) (ev data : Value) (st : State) : State * bool :=
  if is_string "dbg" ev then
    (pushLog ("[BE] " ++ String_ data)%string (setStreamingReceived true st), false)
  else if is_string "result" ev then
    (on_result ph data st, false)
  else if is_string "done" ev then
    (pushLog (done_message ph) st, true)
  else
    (pushLog ("[BE:" ++ String_ ev ++ "] " ++ JSON_stringify data)%string st, false).

(** The [try]/[catch] around one data line.  [JSON.parse] throws on text that
    is not JSON and [payload.event] throws on [null], both before any effect.
    [String(data)] of the [dbg] branch throws after the ref is set, and
    [String(ev)] of the last branch before any effect.  Nothing else in the
    [try] throws. *)
Definition on_payload (ph : Phase) (payloadRaw : string) (st : State) : State * bool :=
  match JSON_parse payloadRaw with
  | None | Some JNull => (pushLog ("[BE] " ++ payloadRaw)%string st, false)
  | Some payload =>
      let ev := get payload "event" in
      let data := get payload "data" in
      if is_string "dbg" ev && String_throws data then
        (pushLog ("[BE] " ++ payloadRaw)%string (setStreamingReceived true st), false)
      else if negb (is_string "dbg" ev || is_string "result" ev || is_string "done" ev)
              && String_throws ev then
        (pushLog ("[BE] " ++ payloadRaw)%string st, false)
      else on_event ph ev data st
  end.

(** [for (const line of lines)]: the new state, and whether [done] broke out
    of the loop. *)
Fixpoint for_lines (ph : Phase) (lines : list string) (st : State) : State * bool :=
  match lines with
  | [] => (st, false)
  | line :: rest =>
      if startsWith ":" line then for_lines ph rest st
      else if negb (startsWith "data:" line) then for_lines ph rest st
      else
        let payloadRaw := trim (slice (String.length "data:") line) in
        let (st', finished) := on_payload ph payloadRaw st in
        if finished then (st', true) else for_lines ph rest st'
  end.

Definition lines_of (part : string) : list string := map trim (split LF part).

(** [for (const part of parts)], threading the local [finished]. *)
Fixpoint for_parts (ph : Phase) (parts : list string) (st : State) (finished : bool)
  : State * bool :=
  match parts with
  | [] => (st, finished)
  | part :: rest =>
      let (st', broke) := for_lines ph (lines_of part) st in
      for_parts ph rest st' (finished || broke)
  end.

(** [while (!finished)], entered with [finished = false]: the state when the
    loop is left, and the message of the rejection that left it, if one did. *)
Fixpoint read_loop (ph : Phase) (reads : list Read) (buf : string) (st : State)
  : State * option string :=
  match reads with
  | [] => (st, None)                              (* if (done) break *)
  | ReadError message :: _ => (st, Some message)
  | Chunk text :: rest =>
      let buf := (buf ++ text)%string in
      let parts := split (LF ++ LF)%string buf in
      let buf := last parts "" in                 (* parts.pop() ?? "" *)
      let parts := removelast parts in
      let (st', finished) := for_parts ph parts st false in
      if finished then (st', None) else read_loop ph rest buf st'
  end.

(** From the answer of [fetch] to the end of the [try] block. *)
Definition consume (ph : Phase) (res : Fetched) (st : State) : State * option string :=
  match res with
  | Rejected message => (st, Some message)
  | NotOk status statusText text =>
      (st, Some (status ++ " " ++ statusText ++ " - " ++ text)%string)
  | NoBody => (st, Some msg_no_stream)
  | Body reads => read_loop ph reads "" st
  end.

(** [runAnalyze], with [res] what the analyze endpoint answers. *)
Definition runAnalyze (decodedCenterId : string) (refFile : option string)
  (ocrFiles : list string) (res : Fetched) (st : State) : State :=
  if String.eqb decodedCenterId "" then setError (Some msg_no_center) st
  else if Nat.eqb (length ocrFiles) 0 then setError (Some msg_no_files) st
  else
    let st := setError None st in
    let st := setAnalyzing true st in
    let st := setResponse (fun _ => None) st in
    let st := setFinalLinks (fun _ => []) st in
    let st := setLogs (fun _ => []) st in
    let st := pushLog msg_analyze_started st in
    let (st, thrown) := consume Analyzing res (fetch analyze_endpoint st) in
    let st :=
      match thrown with
      | Some message => pushLog msg_analyze_failed (setError (Some message) st)
      | None => st
      end in
    setAnalyzing false st.

(** [runExport], with [canExport] the memo of the render it was created in and
    [res] what the export endpoint answers. *)
Definition runExport (canExport : bool) (res : Fetched) (st : State) : State :=
  if negb (truthy (response st)) || negb canExport then setError (Some msg_no_result) st
  else
    let st := setError None st in
    let st := setExporting true st in
    let st := pushLog msg_export_started st in
    let (st, thrown) := consume Exporting res (fetch export_endpoint st) in
    let st :=
      match thrown with
      | Some message => pushLog msg_export_failed (setError (Some message) st)
      | None => st
      end in
    setExporting false st.

End Builtins.

End Console.

Import Console.

(** ** A sample engine

    An executable instance of the four built-ins, for running the handlers on
    concrete streams.  [JSON_parse] reads the JSON of the scenarios: literals,
    integers, strings with the one-letter escapes, arrays and objects; it
    refuses numbers with a fraction or an exponent and [\u] escapes, which no
    scenario below uses.  The clock shows the number of its reading. *)

Module Sample.

Definition code (c : ascii) : nat := nat_of_ascii c.

Definition is_digit (c : ascii) : bool := Nat.leb 48 (code c) && Nat.leb (code c) 57.

Definition is_blank (c : ascii) : bool :=
  existsb (Nat.eqb (code c)) [32; 9; 10; 13].

Fixpoint skip_ws (s : string) : string :=
  match s with
  | String c s' => if is_blank c then skip_ws s' else s
  | EmptyString => s
  end.

Fixpoint read_digits (s : string) (acc : Z) : Z * string :=
  match s with
  | String c s' =>
      if is_digit c
      then read_digits s' (10 * acc + Z.of_nat (code c - 48))%Z
      else (acc, s)
  | EmptyString => (acc, s)
  end.

Definition read_number (s : string) : option (JValue * string) :=
  let (negative, s1) :=
    match s with
    | String c r => if Nat.eqb (code c) 45 then (true, r) else (false, s)
    | EmptyString => (false, s)
    end in
  match s1 with
  | String c r =>
      let leading_zero :=
        Nat.eqb (code c) 48 &&
        match r with String d _ => is_digit d | EmptyString => false end in
      if is_digit c && negb leading_zero then
        let (n, rest) := read_digits s1 0%Z in
        let unread :=
          match rest with
          | String d _ => existsb (Nat.eqb (code d)) [46; 69; 101]
          | EmptyString => false
          end in
        if unread then None
        else Some (JNumber (inject_Z (if negative then (- n)%Z else n)), rest)
      else None
  | EmptyString => None
  end.

Definition unescape (c : ascii) : option ascii :=
  let n := code c in
  if existsb (Nat.eqb n) [34; 92; 47] then Some c
  else if Nat.eqb n 98 then Some (ascii_of_nat 8)
  else if Nat.eqb n 102 then Some (ascii_of_nat 12)
  else if Nat.eqb n 110 then Some (ascii_of_nat 10)
  else if Nat.eqb n 114 then Some (ascii_of_nat 13)
  else if Nat.eqb n 116 then Some (ascii_of_nat 9)
  else None.

Definition push_char (c : ascii) (r : option (string * string)) : option (string * string) :=
  option_map (fun p => (String c (fst p), snd p)) r.

(** The text of a string literal after its opening quote, and what follows
    the closing one. *)
Fixpoint read_string (s : string) : option (string * string) :=
  match s with
  | EmptyString => None
  | String c r =>
      if Nat.eqb (code c) 34 then Some ("", r)
      else if Nat.eqb (code c) 92 then
        match r with
        | String e r' =>
            match unescape e with
            | Some ch => push_char ch (read_string r')
            | None => None
            end
        | EmptyString => None
        end
      else if Nat.ltb (code c) 32 then None
      else push_char c (read_string r)
  end.

Fixpoint read_value (fuel : nat) (s : string) : option (JValue * string) :=
  match fuel with
  | O => None
  | S fuel =>
      let s := skip_ws s in
      if startsWith "null" s then Some (JNull, slice 4 s)
      else if startsWith "true" s then Some (JBool true, slice 4 s)
      else if startsWith "false" s then Some (JBool false, slice 5 s)
      else
        match s with
        | String c r =>
            if Nat.eqb (code c) 34 then
              option_map (fun p => (JString (fst p), snd p)) (read_string r)
            else if Nat.eqb (code c) 91 then
              if startsWith "]" (skip_ws r) then Some (JArray [], slice 1 (skip_ws r))
              else option_map (fun p => (JArray (fst p), snd p)) (read_items fuel r)
            else if Nat.eqb (code c) 123 then
              if startsWith "}" (skip_ws r) then Some (JObject [], slice 1 (skip_ws r))
              else
                option_map
                  (fun p => (JObject (fold_left (fun acc kv => set_field (fst kv) (snd kv) acc)
                                        (fst p) []), snd p))
                  (read_fields fuel r)
            else read_number s
        | EmptyString => None
        end
  end
with read_items (fuel : nat) (s : string) : option (list JValue * string) :=
  match fuel with
  | O => None
  | S fuel =>
      match read_value fuel s with
      | Some (v, r) =>
          match skip_ws r with
          | String c r' =>
              if Nat.eqb (code c) 44 then
                option_map (fun p => (v :: fst p, snd p)) (read_items fuel r')
              else if Nat.eqb (code c) 93 then Some ([v], r')
              else None
          | EmptyString => None
          end
      | None => None
      end
  end
with read_fields (fuel : nat) (s : string) : option (list (string * JValue) * string) :=
  match fuel with
  | O => None
  | S fuel =>
      match skip_ws s with
      | String q r =>
          if Nat.eqb (code q) 34 then
            match read_string r with
            | Some (k, r1) =>
                match skip_ws r1 with
                | String colon r2 =>
                    if Nat.eqb (code colon) 58 then
                      match read_value fuel r2 with
                      | Some (v, r3) =>
                          match skip_ws r3 with
                          | String c r4 =>
                              if Nat.eqb (code c) 44 then
                                option_map (fun p => ((k, v) :: fst p, snd p))
                                  (read_fields fuel r4)
                              else if Nat.eqb (code c) 125 then Some ([(k, v)], r4)
                              else None
                          | EmptyString => None
                          end
                      | None => None
                      end
                    else None
                | EmptyString => None
                end
            | None => None
            end
          else None
      | EmptyString => None
      end
  end.

Definition JSON_parse (text : string) : option JValue :=
  match read_value (2 * String.length text + 2) text with
  | Some (v, rest) =>
      match skip_ws rest with
      | EmptyString => Some v
      | String _ _ => None
      end
  | None => None
  end.

Definition number_text (q : Q) : string :=
  let n := NilZero.string_of_int (Z.to_int (Qnum q)) in
  match Qden q with
  | xH => n
  | d => (n ++ "/" ++ NilZero.string_of_uint (Pos.to_uint d))%string
  end.

(** [String(v)]. *)
Fixpoint text_of (v : JValue) : string :=
  match v with
  | JNull => "null"
  | JBool true => "true"
  | JBool false => "false"
  | JNumber q => number_text q
  | JString s => s
  | JArray items =>
      String.concat ","
        (map (fun x => match x with JNull => "" | _ => text_of x end) items)
  | JObject _ => "[object Object]"
  end.

Definition String_ (v : Value) : string :=
  match v with
  | Some x => text_of x
  | None => "undefined"
  end.

Definition hex_digit (n : nat) : ascii :=
  ascii_of_nat (if Nat.ltb n 10 then 48 + n else 87 + n).

Fixpoint quote_body (s : string) : string :=
  match s with
  | EmptyString => ""
  | String c r =>
      let n := code c in
      let esc (e : string) := ("\" ++ e ++ quote_body r)%string in
      if Nat.eqb n 34 then esc DQ
      else if Nat.eqb n 92 then esc "\"
      else if Nat.eqb n 8 then esc "b"
      else if Nat.eqb n 12 then esc "f"
      else if Nat.eqb n 10 then esc "n"
      else if Nat.eqb n 13 then esc "r"
      else if Nat.eqb n 9 then esc "t"
      else if Nat.ltb n 32 then
        esc (String "u" (String "0" (String "0"
               (String (hex_digit (n / 16)) (String (hex_digit (n mod 16)) "")))))
      else String c (quote_body r)
  end.

Definition quote (s : string) : string := (DQ ++ quote_body s ++ DQ)%string.

Fixpoint json_of (v : JValue) : string :=
  match v with
  | JNull => "null"
  | JBool true => "true"
  | JBool false => "false"
  | JNumber q => number_text q
  | JString s => quote s
  | JArray items => ("[" ++ String.concat "," (map json_of items) ++ "]")%string
  | JObject fields =>
      ("{" ++ String.concat ","
                (map (fun kv => (quote (fst kv) ++ ":" ++ json_of (snd kv))%string) fields)
           ++ "}")%string
  end.

(** What a template literal shows of [JSON.stringify(v)]. *)
Definition JSON_stringify (v : Value) : string :=
  match v with
  | Some x => json_of x
  | None => "undefined"
  end.

Definition toLocaleTimeString (n : nat) : string := index_key n.

Definition runAnalyze := runAnalyze JSON_parse String_ JSON_stringify toLocaleTimeString.
Definition runExport := runExport JSON_parse String_ JSON_stringify toLocaleTimeString.
Definition for_lines := for_lines JSON_parse String_ JSON_stringify toLocaleTimeString.
Definition on_payload := on_payload JSON_parse String_ JSON_stringify toLocaleTimeString.
Definition on_event := on_event String_ JSON_stringify toLocaleTimeString.

(** Wire text: a data frame whose envelope is [{"event": kind, "data": data}],
    with [data] given as JSON text, and a string as JSON text. *)
Definition envelope (kind data : string) : string :=
  ("{" ++ quote "event" ++ ":" ++ quote kind ++ "," ++ quote "data" ++ ":" ++ data ++ "}")%string.

Definition data_line (payload : string) : string := ("data: " ++ payload)%string.

Definition frame (body : string) : string := (body ++ LF ++ LF)%string.

Definition event_frame (kind data : string) : string :=
  frame (data_line (envelope kind data)).

(** The JSON text of an object whose values are given as JSON text. *)
Definition object (fields : list (string * string)) : string :=
  ("{" ++ String.concat "," (map (fun kv => (quote (fst kv) ++ ":" ++ snd kv)%string) fields)
       ++ "}")%string.

(** The JSON text of an array whose elements are given as JSON text. *)
Definition array (items : list string) : string :=
  ("[" ++ String.concat "," items ++ "]")%string.

End Sample.

(** ** Notions the statements below are written in *)

(** [new] is [old] with lines added at its end. *)
Definition extends (old new : list string) : Prop :=
  exists added, new = old ++ added.

(** The payloads of the data lines of a frame, in the order of the lines. *)
Definition data_payloads (lines : list string) : list string :=
  map (fun line => trim (slice (String.length "data:") line))
      (filter (startsWith "data:") lines).

(** The elements of the payload's [debug_logs], when it is an array. *)
Definition debug_logs_of (data : Value) : list JValue :=
  match prop data "debug_logs" with
  | Some (JArray items) => items
  | _ => []
  end.

(** The lines a result adds for its [debug_logs]: one for each element that
    is a string. *)
Definition backend_lines (data : Value) : list string :=
  map (fun ln => ("[BE] " ++ ln)%string) (string_items (debug_logs_of data)).

(** The text a list of chunks carries: the chunks, joined. *)
Definition join (chunks : list string) : string :=
  fold_right String.append "" chunks.

(** No two links carry the same text as their url. *)
Definition distinct_urls (links : list FinalLink) : Prop := NoDup (map url links).

Module Session.

Section Dispatching.

Variable JSON_parse : string -> option JValue.
Variable String_ : Value -> string.
Variable JSON_stringify : Value -> string.
Variable toLocaleTimeString : nat -> string.

(** Every payload of a list handed to [on_payload] in turn, up to and
    including the first that ends the session. *)
Fixpoint dispatch_all (ph : Phase) (payloads : list string) (st : State) : State * bool :=
  match payloads with
  | [] => (st, false)
  | payloadRaw :: rest =>
      let (st', finished) :=
        on_payload JSON_parse String_ JSON_stringify toLocaleTimeString ph payloadRaw st in
      if finished then (st', true) else dispatch_all ph rest st'
  end.

End Dispatching.

End Session.

Import Session.

(** ** Scenarios *)

Module Scenario.

Import Sample.

Definition files : list string := ["order.pdf"].

Definition analyze (chunks : list string) (st : State) : State :=
  Sample.runAnalyze "center-1" None files (Body (map Chunk chunks)) st.

Definition export (chunks : list string) (st : State) : State :=
  Sample.runExport true (Body (map Chunk chunks)) st.

Definition stamped (n : nat) (message : string) : string :=
  stamp (Sample.toLocaleTimeString n) message.

(** Two [result] events, [{a: 1}] then [{b: 2}]. *)
Definition result_a : string := event_frame "result" (object [("a", "1")]).
Definition result_b : string := event_frame "result" (object [("b", "2")]).

(** A [done] frame with a [dbg] frame behind it. *)
Definition done_frame : string := event_frame "done" "null".
Definition late_frame : string := event_frame "dbg" (quote "late").

(** An analyze session that streams a [dbg] line before its result, and an
    export session that streams none and carries its log in the result. *)
Definition analyze_with_dbg : string :=
  (event_frame "dbg" (quote "step1")
   ++ event_frame "result" (object [("maker_cds", object [("m", array [quote "c"])])])
   ++ done_frame)%string.
Definition export_without_dbg : string :=
  (event_frame "result"
     (object [("output_spreadsheet_url", quote "https://sheet/1");
              ("debug_logs", array [quote "exported"])])
   ++ done_frame)%string.

(** A result whose [debug_logs] holds a number between two strings. *)
Definition mixed_debug_logs : string :=
  event_frame "result"
    (object [("debug_logs", array [quote "first"; "7"; quote "third"])]).

(** A result whose two urls are the same, and one that names a snapshot. *)
Definition same_urls : string :=
  event_frame "result"
    (object [("ocr_snapshot_url", quote "https://sheet/1");
             ("output_spreadsheet_url", quote "https://sheet/1")]).
Definition snapshot : string :=
  event_frame "result" (object [("ocr_snapshot_url", quote "https://sheet/1")]).

(** One frame with two data lines. *)
Definition two_data_lines : string :=
  frame (data_line (envelope "dbg" (quote "first")) ++ LF
         ++ data_line (envelope "dbg" (quote "second")))%string.

(** A data line whose payload is not JSON. *)
Definition not_json : string := "data: {not json}".

(** The streams of the scenarios A, B and C. *)
Definition scenario_A : string :=
  (event_frame "dbg" (quote "step1") ++ event_frame "result" (object [("x", "1")])
   ++ done_frame)%string.
Definition scenario_B : string := frame ": keep-alive".
Definition scenario_C : string := frame not_json.

(** Payloads as [JSON.parse] returns them. *)
Definition payload_b : Value := Some (JObject [("b", JNumber (inject_Z 2))]).

(** The state an analyze session that got [{a: 1}] leaves, and the state the
    session [analyze_with_dbg] leaves. *)
Definition after_a : State := analyze [result_a] mount.
Definition after_analyze : State := analyze [analyze_with_dbg] mount.

End Scenario.

(** ** The export gate and the steps of the component *)

Module Gate.

(** [codes.length] as a condition, for an element [codes] of
    [Object.values(maker_cds)]: [None] when reading it throws (on [null]). *)
Definition has_length (codes : JValue) : option bool :=
  match codes with
  | JNull => None
  | JArray items => Some (negb (Nat.eqb (length items) 0))
  | JString s => Some (negb (String.eqb s ""))
  | JObject _ => Some (truthy (get codes "length"))
  | JBool _ | JNumber _ => Some false
  end.

(** [values.some((codes) => codes.length)]: the elements are tried in order
    and the first truthy length ends the search. *)
Fixpoint some_length (values : list JValue) : option bool :=
  match values with
  | [] => Some false
  | codes :: rest =>
      match has_length codes with
      | None => None
      | Some true => Some true
      | Some false => some_length rest
      end
  end.

(** The memo [canExport], computed from [response]; [None] when computing it
    throws.  [Object.values] of an object are the values of its fields, of an
    array its elements, of a string its characters (each of length one), and
    of a number or boolean nothing. *)
Definition canExport (response : Value) : option bool :=
  if negb (truthy response) then Some false
  else
    match prop response "maker_cds" with
    | None | Some JNull => Some false                    (* ?? {} *)
    | Some (JObject groups) => some_length (map snd groups)
    | Some (JArray items) => some_length items
    | Some (JString s) => Some (negb (String.eqb s ""))
    | Some (JBool _) | Some (JNumber _) => Some false
    end.

(** An array that is not empty. *)
Definition is_codes (codes : JValue) : bool :=
  match codes with
  | JArray (_ :: _) => true
  | _ => false
  end.

Definition is_array (v : JValue) : bool :=
  match v with
  | JArray _ => true
  | _ => false
  end.

End Gate.

Import Gate.

Module Lifetime.

Section Steps.

Variable JSON_parse : string -> option JValue.
Variable String_ : Value -> string.
Variable JSON_stringify : Value -> string.
Variable toLocaleTimeString : nat -> string.

(** [runAnalyze] from the click to its first [await]: the validation, the
    resets, the line announcing the analysis, and the request. *)
Definition analyze_click (decodedCenterId : string) (refFile : option string)
  (ocrFiles : list string) (st : State) : State :=
  if String.eqb decodedCenterId "" then setError (Some msg_no_center) st
  else if Nat.eqb (length ocrFiles) 0 then setError (Some msg_no_files) st
  else
    let st := setError None st in
    let st := setAnalyzing true st in
    let st := setResponse (fun _ => None) st in
    let st := setFinalLinks (fun _ => []) st in
    let st := setLogs (fun _ => []) st in
    let st := pushLog toLocaleTimeString msg_analyze_started st in
    fetch analyze_endpoint st.

(** [runExport] from the click to its first [await]. *)
Definition export_click (canExport : bool) (st : State) : State :=
  if negb (truthy (response st)) || negb canExport then setError (Some msg_no_result) st
  else
    let st := setError None st in
    let st := setExporting true st in
    let st := pushLog toLocaleTimeString msg_export_started st in
    fetch export_endpoint st.

Definition failed_message (ph : Phase) : string :=
  match ph with
  | Analyzing => msg_analyze_failed
  | Exporting => msg_export_failed
  end.

(** The [catch] of a handler, on an error with the given message. *)
Definition caught (ph : Phase) (message : string) (st : State) : State :=
  pushLog toLocaleTimeString (failed_message ph) (setError (Some message) st).

(** The [finally] of a handler. *)
Definition settled (ph : Phase) (st : State) : State :=
  match ph with
  | Analyzing => setAnalyzing false st
  | Exporting => setExporting false st
  end.

(** What the component does without a break.  A handler gives way at each
    [await] (the request, the body of a bad answer, each read), and the
    buttons allow the other handler to be started meanwhile: the analyze
    button is disabled by [analyzing] alone and the export button by
    [!canExport || exporting].  So the steps of two sessions can alternate;
    within a step nothing else happens. *)
Inductive Action : Type :=
| Click_analyze (decodedCenterId : string) (refFile : option string)
    (ocrFiles : list string)
| Click_export (canExport : bool)
| Data_line (ph : Phase) (payloadRaw : string)
| Caught (ph : Phase) (message : string)
| Settled (ph : Phase).

Definition perform (action : Action) (st : State) : State :=
  match action with
  | Click_analyze decodedCenterId refFile ocrFiles =>
      analyze_click decodedCenterId refFile ocrFiles st
  | Click_export canExport => export_click canExport st
  | Data_line ph payloadRaw =>
      fst (on_payload JSON_parse String_ JSON_stringify toLocaleTimeString ph payloadRaw st)
  | Caught ph message => caught ph message st
  | Settled ph => settled ph st
  end.

(** Steps taken one after another, of either handler in any order. *)
Definition run (actions : list Action) (st : State) : State :=
  fold_left (fun s action => perform action s) actions st.

(** The states the component can be in: it mounts, and then takes steps.
    Every order of steps is admitted, which covers every way two sessions
    can alternate, and every run of a handler on its own. *)
Inductive reachable : State -> Prop :=
| reach_mount : reachable mount
| reach_step (action : Action) (st : State) :
    reachable st -> reachable (perform action st).

(** The payload is an envelope whose [event] is ["dbg"]. *)
Definition carries_dbg (payloadRaw : string) : bool :=
  match JSON_parse payloadRaw with
  | Some payload => is_string "dbg" (get payload "event")
  | None => false
  end.

Definition same_phase (a b : Phase) : bool :=
  match a, b with
  | Analyzing, Analyzing | Exporting, Exporting => true
  | _, _ => false
  end.

Definition other (ph : Phase) : Phase :=
  match ph with
  | Analyzing => Exporting
  | Exporting => Analyzing
  end.

(** The step is a [dbg] event handled by the session of [ph]. *)
Definition dbg_of (ph : Phase) (action : Action) : bool :=
  match action with
  | Data_line ph' payloadRaw => same_phase ph ph' && carries_dbg payloadRaw
  | _ => false
  end.

End Steps.

End Lifetime.

Import Lifetime.

(** A link as the handlers make them: one of the two names, a truthy url. *)
Definition link_ok (link : FinalLink) : Prop :=
  truthy (Some (url link)) = true /\
  (name link = name_ocr_link \/ name link = name_output_link).


(** ** The list of OCR files *)

Module Files.

(** Where [splice] starts: a start below zero counts from the end, and the
    start is kept within the array. *)
Definition splice_start (start : Z) (len : nat) : nat :=
  if (start <? 0)%Z
  then Z.to_nat (Z.max (Z.of_nat len + start) 0)
  else Nat.min (Z.to_nat start) len.

(** [array.splice(start, deleteCount, ...items)]: the elements removed, and
    the array afterwards. *)
Definition splice {X : Type} (start : Z) (deleteCount : nat) (items : list X)
  (array : list X) : list X * list X :=
  let from := splice_start start (length array) in
  let count := Nat.min deleteCount (length array - from) in
  (firstn count (skipn from array),
   firstn from array ++ items ++ skipn (from + count) array).

(** [handleAddOcr], with [files] what the input holds. *)
Definition handleAddOcr {X : Type} (files prev : list X) : list X :=
  if negb (Nat.eqb (length files) 0) then prev ++ files else prev.

(** [handleRemoveOcr]: [prev.filter((_, i) => i !== index)]. *)
Definition handleRemoveOcr {X : Type} (index : nat) (prev : list X) : list X :=
  map snd
    (filter (fun entry => negb (Nat.eqb (fst entry) index))
       (combine (seq 0 (length prev)) prev)).

(** [onDrop] on the file with number [index].  [from] is the number the drag
    data reads as: [None] for [NaN], else the number cut to an integer as
    [splice] cuts it (an infinite one acts as any beyond the ends).  An entry
    of the list is a file or [undefined], which [onDrop] can put there. *)
Definition onDrop {A : Type} (from : option Z) (index : nat) (prev : list (option A))
  : list (option A) :=
  match from with
  | None => prev
  | Some from =>
      let (removed, next) := splice from 1 [] prev in
      let moved := match removed with x :: _ => x | [] => None end in
      snd (splice (Z.of_nat index) 0 [moved] next)
  end.

End Files.

(** ** The table of results

    [CalcResultTable], on a result of the declared type [OrderResponse]: its
    cells are strings, [maker_cds] and [maker_data] are given by their entries
    in the order [Object.entries] lists them, each key once. *)

Module Table.

(** An entry of [flags]: [dest, maker, code, seibun, mihon]. *)
Record FlagsEntry : Type := mkFlags5 {
  f_dest : string; f_maker : string; f_code : string;
  f_seibun : string; f_mihon : string
}.

(** An entry of [flags_with_number]: [dest, maker, code, num, seibun, mihon]. *)
Record FlagsWithNumberEntry : Type := mkFlags6 {
  n_dest : string; n_maker : string; n_code : string; n_num : string;
  n_seibun : string; n_mihon : string
}.

(** A value of [flagsMap]; [num] is [None] where the object has none. *)
Record Flags : Type := mkShown {
  dest : string; seibun : string; mihon : string; num : option string
}.

(** The fields of [OrderResponse] the table reads. *)
Record OrderResponse : Type := mkOrder {
  flags : list FlagsEntry;
  flags_with_number : option (list FlagsWithNumberEntry);
  maker_data : list (string * list (list string));
  maker_cds : list (string * list string)
}.

Definition header : list string :=
  ["依頼先"; "メーカー"; "商品CD"; "番号"; "メーカー(結果)"; "商品名"; "規格"; "成分表"; "見本"; "備考"].

(** A [Map] with string keys: [get] and [set]. *)
Fixpoint map_get {V : Type} (k : string) (m : list (string * V)) : option V :=
  match m with
  | [] => None
  | (k', v) :: rest => if String.eqb k' k then Some v else map_get k rest
  end.

Fixpoint map_set {V : Type} (k : string) (v : V) (m : list (string * V))
  : list (string * V) :=
  match m with
  | [] => [(k, v)]
  | (k', v') :: rest =>
      if String.eqb k' k then (k, v) :: rest else (k', v') :: map_set k v rest
  end.

(** The key [`${maker}__${code}`]. *)
Definition flag_key (maker code : string) : string := (maker ++ "__" ++ code)%string.

Definition key5 (e : FlagsEntry) : string := flag_key (f_maker e) (f_code e).
Definition key6 (e : FlagsWithNumberEntry) : string := flag_key (n_maker e) (n_code e).

Definition shown5 (e : FlagsEntry) : Flags :=
  mkShown (f_dest e) (f_seibun e) (f_mihon e) None.
Definition shown6 (e : FlagsWithNumberEntry) : Flags :=
  mkShown (n_dest e) (n_seibun e) (n_mihon e) (Some (n_num e)).

(** [flagsMap] once it is filled: from [flags_with_number] when that is an
    array with an entry, from [flags] otherwise. *)
Definition flagsMap (response : OrderResponse) : list (string * Flags) :=
  match flags_with_number response with
  | Some (e :: es) =>
      fold_left (fun m entry => map_set (key6 entry) (shown6 entry) m) (e :: es) []
  | _ =>
      fold_left (fun m entry => map_set (key5 entry) (shown5 entry) m) (flags response) []
  end.

(** The flags shown where the map has none. *)
Definition no_flags : Flags := mkShown "" "" "" (Some "").

(** [row[i] ?? fallback]. *)
Definition cell (row : list string) (i : nat) (fallback : string) : string :=
  nth i row fallback.

(** The row pushed for the code with number [index] of a maker. *)
Definition row_of (m : list (string * Flags)) (maker : string)
  (dataRows : list (list string)) (index : nat) (code : string) : list string :=
  let row := nth index dataRows [maker; ""; ""; ""] in
  let shown := match map_get (flag_key maker code) m with
               | Some f => f
               | None => no_flags
               end in
  [dest shown; maker; code;
   match num shown with Some n => n | None => "" end;
   cell row 0 maker; cell row 1 ""; cell row 2 "";
   seibun shown; mihon shown; cell row 3 ""].

Definition rows_of_maker (response : OrderResponse) (entry : string * list string)
  : list (list string) :=
  let (maker, codes) := entry in
  let dataRows := match map_get maker (maker_data response) with
                  | Some rows => rows
                  | None => []
                  end in
  map (fun numbered => row_of (flagsMap response) maker dataRows (fst numbered) (snd numbered))
      (combine (seq 0 (length codes)) codes).

(** The rows [CalcResultTable] hands to [DataTable]. *)
Definition table_rows (response : OrderResponse) : list (list string) :=
  header :: flat_map (rows_of_maker response) (maker_cds response).

(** [CalcResultTable]: nothing without a result. *)
Definition CalcResultTable (response : option OrderResponse) : option (list (list string)) :=
  option_map table_rows response.

(** The pairs of maker and code of a result, maker by maker. *)
Definition pairs (response : OrderResponse) : list (string * string) :=
  flat_map (fun entry => map (pair (fst entry)) (snd entry)) (maker_cds response).

End Table.

(** ** The tree of a configuration *)

Module JsonTree.

Definition isRecord (value : JValue) : bool :=
  match value with
  | JObject _ => true
  | _ => false
  end.

Definition isPrimitive (value : JValue) : bool :=
  match value with
  | JArray _ | JObject _ => false
  | _ => true
  end.

(** The characters of the class [[.*+?^${}()|[\]\\]]. *)
Definition syntax_characters : string := ".*+?^${}()|[]\".

Definition is_syntax (c : ascii) : bool :=
  existsb (Ascii.eqb c) (list_ascii_of_string syntax_characters).

Definition backslash : ascii := ascii_of_nat 92.

(** [escapeRegExp]: a backslash before each character of the class. *)
Fixpoint escapeRegExp (value : string) : string :=
  match value with
  | EmptyString => EmptyString
  | String c rest =>
      if is_syntax c
      then String backslash (String c (escapeRegExp rest))
      else String c (escapeRegExp rest)
  end.

(** The patterns of the language, as far as [Highlight] needs them.
    [SyntaxCharacter] is the production of that name in the grammar of
    ECMAScript patterns, [^ $ \ . * + ? ( ) [ ] { } |], given by the codes of
    its characters: these have a meaning of their own in a pattern, every
    other character is a [PatternCharacter] and matches itself, and a
    [SyntaxCharacter] behind a backslash is an identity escape, which matches
    that character. *)
Definition SyntaxCharacter : list nat :=
  [94; 36; 92; 46; 42; 43; 63; 40; 41; 91; 93; 123; 125; 124].

Definition is_SyntaxCharacter (c : ascii) : bool :=
  existsb (Nat.eqb (nat_of_ascii c)) SyntaxCharacter.

(** The text a pattern matches when it is made of nothing but pattern
    characters and identity escapes of syntax characters; [None] for a pattern
    with anything else in it. *)
Fixpoint literal_of (pattern : string) : option string :=
  match pattern with
  | EmptyString => Some EmptyString
  | String c rest =>
      if Nat.eqb (nat_of_ascii c) 92 then
        match rest with
        | String d rest' =>
            if is_SyntaxCharacter d then option_map (String d) (literal_of rest') else None
        | EmptyString => None
        end
      else if is_SyntaxCharacter c then None
      else option_map (String c) (literal_of rest)
  end.

#[local] Set Warnings "-register-all".

(** What [JsonNode] draws: a line with a label and a value, or a [details]
    element with its summary, whether it is open, and its children.  The
    texts are those handed to [Highlight]. *)
Inductive Rendered : Type :=
| Leaf (label : option string) (text : string)
| Details (summary : string) (opened : bool) (children : list Rendered).

(** [label ?]: a label that is given and not empty. *)
Definition given (label : option string) : option string :=
  match label with
  | Some l => if String.eqb l "" then None else Some l
  | None => None
  end.

Definition summary_of (label : option string) (brackets : string) : string :=
  match given label with
  | Some l => (l ++ " " ++ brackets)%string
  | None => brackets
  end.

Definition defaultOpen (query : string) (depth : nat) : bool :=
  Nat.ltb depth 2 || negb (Nat.eqb (String.length query) 0).

Section Rendering.

(** [String(value)], for the numbers and booleans. *)
Variable String_ : Value -> string.

Fixpoint JsonNode (label : option string) (value : JValue) (query : string)
  (depth : nat) {struct value} : Rendered :=
  match value with
  | JArray items =>
      Details (summary_of label "[ ]") (defaultOpen query depth)
        ((fix entries (index : nat) (items : list JValue) {struct items} : list Rendered :=
            match items with
            | [] => []
            | item :: rest =>
                JsonNode (Some (index_key index)) item query (S depth)
                  :: entries (S index) rest
            end) 0 items)
  | JObject fields =>
      Details (summary_of label "{ }") (defaultOpen query depth)
        (map (fun entry => JsonNode (Some (fst entry)) (snd entry) query (S depth)) fields)
  | JNull =>
      Leaf (option_map (fun l => (l ++ ": ")%string) (given label)) "null"
  | JString s =>
      Leaf (option_map (fun l => (l ++ ": ")%string) (given label)) (DQ ++ s ++ DQ)%string
  | other =>
      Leaf (option_map (fun l => (l ++ ": ")%string) (given label)) (String_ (Some other))
  end.

(** [JsonTree]: the node of the data, under the label [root]. *)
Definition JsonTree (data : JValue) (query : string) : Rendered :=
  JsonNode (Some "root") data query 0.

End Rendering.

(** The lines of a drawing, and the values of a tree that are not containers. *)
Fixpoint leaves (r : Rendered) : nat :=
  match r with
  | Leaf _ _ => 1
  | Details _ _ children => list_sum (map leaves children)
  end.

Fixpoint primitives (value : JValue) : nat :=
  match value with
  | JArray items => list_sum (map primitives items)
  | JObject fields => list_sum (map (fun entry => primitives (snd entry)) fields)
  | _ => 1
  end.

(** Every [details] element of a drawing is open. *)
Fixpoint all_open (r : Rendered) : bool :=
  match r with
  | Leaf _ _ => true
  | Details _ opened children => opened && forallb all_open children
  end.

(** The [details] elements of a drawing, [depth] levels down the tree, are
    open above the second level and closed from there on. *)
Fixpoint open_to_second (depth : nat) (r : Rendered) : bool :=
  match r with
  | Leaf _ _ => true
  | Details _ opened children =>
      Bool.eqb opened (Nat.ltb depth 2) && forallb (open_to_second (S depth)) children
  end.

End JsonTree.

(** ** The route of a center

    [Header] writes the route of a center with [encodeURIComponent] and reads
    the center off the path with [decodeURIComponent].  On text as UTF-8 bytes
    the first writes the unreserved characters as they are and every other byte
    as [%XX]; the second reads runs of [%XX] back into bytes and throws unless
    each run is the encoding of one code point. *)

Module Route.

Definition byte (c : ascii) : nat := nat_of_ascii c.

Definition between (low high n : nat) : bool := Nat.leb low n && Nat.leb n high.

(** The characters [encodeURIComponent] leaves: letters, digits and
    [- _ . ! ~ * ' ( )]. *)
Definition unreserved (c : ascii) : bool :=
  between 65 90 (byte c) || between 97 122 (byte c) || between 48 57 (byte c)
  || existsb (Nat.eqb (byte c)) [45; 95; 46; 33; 126; 42; 39; 40; 41].

Definition hex_digit (n : nat) : ascii :=
  ascii_of_nat (if Nat.ltb n 10 then 48 + n else 55 + n).

Definition hex_value (c : ascii) : option nat :=
  if between 48 57 (byte c) then Some (byte c - 48)
  else if between 65 70 (byte c) then Some (byte c - 55)
  else if between 97 102 (byte c) then Some (byte c - 87)
  else None.

Definition percent : ascii := ascii_of_nat 37.
Definition slash : ascii := ascii_of_nat 47.

Definition escape (c : ascii) : string :=
  String percent (String (hex_digit (byte c / 16)) (String (hex_digit (byte c mod 16)) "")).

(** A continuation byte. *)
Definition tail (c : ascii) : bool := between 128 191 (byte c).

(** The encodings of one code point in two, three and four bytes: no overlong
    form, no surrogate, nothing above U+10FFFF. *)
Definition two (b1 b2 : ascii) : bool := between 194 223 (byte b1) && tail b2.

Definition three (b1 b2 b3 : ascii) : bool :=
  between 224 239 (byte b1)
  && (if Nat.eqb (byte b1) 224 then between 160 191 (byte b2)
      else if Nat.eqb (byte b1) 237 then between 128 159 (byte b2)
      else tail b2)
  && tail b3.

Definition four (b1 b2 b3 b4 : ascii) : bool :=
  between 240 244 (byte b1)
  && (if Nat.eqb (byte b1) 240 then between 144 191 (byte b2)
      else if Nat.eqb (byte b1) 244 then between 128 143 (byte b2)
      else tail b2)
  && tail b3 && tail b4.

(** The bytes are the UTF-8 encoding of a text: of a JavaScript string, that
    is, in which no surrogate stands alone. *)
Fixpoint valid_utf8 (s : string) : bool :=
  match s with
  | EmptyString => true
  | String b1 r1 =>
      if Nat.ltb (byte b1) 128 then valid_utf8 r1
      else
        match r1 with
        | String b2 r2 =>
            if two b1 b2 then valid_utf8 r2
            else
              match r2 with
              | String b3 r3 =>
                  if three b1 b2 b3 then valid_utf8 r3
                  else
                    match r3 with
                    | String b4 r4 => four b1 b2 b3 b4 && valid_utf8 r4
                    | EmptyString => false
                    end
              | EmptyString => false
              end
        | EmptyString => false
        end
  end.

(** [encodeURIComponent], on a text without a lone surrogate. *)
Fixpoint encodeURIComponent (s : string) : string :=
  match s with
  | EmptyString => EmptyString
  | String c rest =>
      if unreserved c then String c (encodeURIComponent rest)
      else (escape c ++ encodeURIComponent rest)%string
  end.

(** A character of the text to decode as it stands, or the byte of a [%XX]. *)
Inductive Token : Type :=
| Plain (c : ascii)
| Escaped (c : ascii).

(** The text to decode, token by token: [None] where a [%] is not followed by
    two hexadecimal digits. *)
Fixpoint tokens (s : string) : option (list Token) :=
  match s with
  | EmptyString => Some []
  | String c rest =>
      if Ascii.eqb c percent then
        match rest with
        | String high (String low rest') =>
            match hex_value high, hex_value low with
            | Some h, Some l =>
                option_map (cons (Escaped (ascii_of_nat (16 * h + l)))) (tokens rest')
            | _, _ => None
            end
        | _ => None
        end
      else option_map (cons (Plain c)) (tokens rest)
  end.

(** The tokens back as text: an escaped byte below 128 is its character, and
    an escaped byte from 128 on must open a run of escaped bytes that encode
    one code point. *)
Fixpoint decode (ts : list Token) : option string :=
  match ts with
  | [] => Some EmptyString
  | Plain c :: rest => option_map (String c) (decode rest)
  | Escaped b1 :: r1 =>
      if Nat.ltb (byte b1) 128 then option_map (String b1) (decode r1)
      else
        match r1 with
        | Escaped b2 :: r2 =>
            if two b1 b2 then option_map (fun t => String b1 (String b2 t)) (decode r2)
            else
              match r2 with
              | Escaped b3 :: r3 =>
                  if three b1 b2 b3
                  then option_map (fun t => String b1 (String b2 (String b3 t))) (decode r3)
                  else
                    match r3 with
                    | Escaped b4 :: r4 =>
                        if four b1 b2 b3 b4
                        then option_map
                               (fun t => String b1 (String b2 (String b3 (String b4 t))))
                               (decode r4)
                        else None
                    | _ => None
                    end
              | _ => None
              end
        | _ => None
        end
  end.

(** [decodeURIComponent]: [None] when it throws. *)
Definition decodeURIComponent (s : string) : option string :=
  match tokens s with
  | Some ts => decode ts
  | None => None
  end.

(** The text up to the first slash: what [([^/]+)] takes, when it is not
    empty. *)
Fixpoint segment (s : string) : string :=
  match s with
  | EmptyString => EmptyString
  | String c rest => if Ascii.eqb c slash then EmptyString else String c (segment rest)
  end.

(** [currentCenterFromPath]: [None] when decoding throws. *)
Definition currentCenterFromPath (pathname : option string) : option string :=
  match pathname with
  | None => Some ""
  | Some path =>
      if String.eqb path "" then Some ""
      else if startsWith "/center/" path then
        match segment (slice 8 path) with
        | EmptyString => Some ""                       (* no match *)
        | matched => decodeURIComponent matched
        end
      else Some ""
  end.

(** The route [handleChange] pushes for the value chosen. *)
Definition handleChange (value : string) : string :=
  if String.eqb value "" then "/"
  else ("/center/" ++ encodeURIComponent value)%string.

(** [activeCenterId]: [selectValue || currentCenterFromPath || null]. *)
Definition activeCenterId (selectValue fromPath : string) : option string :=
  if negb (String.eqb selectValue "") then Some selectValue
  else if negb (String.eqb fromPath "") then Some fromPath
  else None.

(** The tokens [encodeURIComponent] writes for a text. *)
Fixpoint written (s : string) : list Token :=
  match s with
  | EmptyString => []
  | String c rest => (if unreserved c then Plain c else Escaped c) :: written rest
  end.

End Route.

(** ** More inputs to run the console on *)

Module Cases.

Import Sample Scenario.

(** Frames that carry no data line: a comment, nothing, another field. *)
Definition quiet_frames : list string := [": keep-alive"; ""; "event: ping"].

(** A body that ends before any blank line. *)
Definition cut_short : list string := ["data: {"; "partial"].

(** An event of a kind the console does not know, and a [result] event whose
    payload is a string. *)
Definition progress_payload : string := envelope "progress" "5".
Definition bad_result_payload : string := envelope "result" (quote "oops").
Definition bad_result : JValue :=
  JObject [("event", JString "result"); ("data", JString "oops")].


(** A result with codes for one of its two makers. *)
Definition groups : list (string * JValue) :=
  [("m", JArray [JString "c"]); ("n", JArray [])].
Definition grouped : JValue := JObject [("maker_cds", JObject groups)].

(** The state after an analysis and an export. *)
Definition exported : State := export [export_without_dbg] after_analyze.

Definition three_files : list (option string) :=
  [Some "a.pdf"; Some "b.pdf"; Some "c.pdf"].

(** A center id with a slash, a space and a percent sign in it. *)
Definition center_id : string := "東京/a b%".

(** The steps of the component, on the sample engine. *)
Definition perform : Action -> State -> State :=
  Lifetime.perform Sample.JSON_parse Sample.String_ Sample.JSON_stringify
    Sample.toLocaleTimeString.
Definition run : list Action -> State -> State :=
  Lifetime.run Sample.JSON_parse Sample.String_ Sample.JSON_stringify
    Sample.toLocaleTimeString.

(** While an export session is open, an analysis is started and reports
    progress; and the [result] event the export session then gets, as text
    and as [JSON.parse] returns it. *)
Definition analysis_meanwhile : list Action :=
  [Click_analyze "center-1" None files; Data_line Analyzing progress_payload].
Definition logs_payload : string :=
  envelope "result" (object [("debug_logs", array [quote "exported"])]).
Definition logs_envelope : JValue :=
  JObject [("event", JString "result");
           ("data", JObject [("debug_logs", JArray [JString "exported"])])].

(** An analysis leaves a result, an export is started, the analysis is
    started again while the export session is open, and the export session
    then gets its result. *)
Definition codes_payload : string :=
  envelope "result" (object [("maker_cds", object [("m", array [quote "c"])])]).
Definition url_payload : string :=
  envelope "result" (object [("output_spreadsheet_url", quote "https://sheet/1")]).
Definition late_export : list Action :=
  [Click_analyze "center-1" None files;
   Data_line Analyzing codes_payload;
   Settled Analyzing;
   Click_export true;
   Click_analyze "center-1" None files;
   Data_line Exporting url_payload].

End Cases.

(** * Facts *)

(** ** Splitting text *)

Section Splitting.

Lemma startsWith_app (p s t : string) :
  startsWith p s = true -> startsWith p (s ++ t)%string = true.
Proof.
  revert s. induction p as [|a p IH]; intros s H; [reflexivity|].
  destruct s as [|b s]; simpl in *; [discriminate|].
  apply andb_true_iff in H as [-> H]. simpl. auto.
Qed.

Lemma startsWith_length (p s : string) :
  startsWith p s = true -> String.length p <= String.length s.
Proof.
  revert s. induction p as [|a p IH]; intros s H; simpl; [lia|].
  destruct s as [|b s]; simpl in *; [discriminate|].
  apply andb_true_iff in H as [_ H]. apply IH in H. lia.
Qed.

Lemma startsWith_app_fits (p s t : string) :
  startsWith p (s ++ t)%string = true ->
  String.length p <= String.length s ->
  startsWith p s = true.
Proof.
  revert s. induction p as [|a p IH]; intros s H L; [reflexivity|].
  destruct s as [|b s]; simpl in *; [lia|].
  apply andb_true_iff in H as [-> H]. simpl. apply IH; [assumption | lia].
Qed.

Lemma startsWith_data_not_comment (line : string) :
  startsWith "data:" line = true -> startsWith ":" line = false.
Proof.
  destruct line as [|c line]; [discriminate|].
  cbn [startsWith]. intros H. apply andb_true_iff in H as [H _].
  apply Ascii.eqb_eq in H. subst c. reflexivity.
Qed.

Lemma split_on_not_nil (sep : string) (k : nat) (s : string) : split_on sep k s <> [].
Proof.
  revert k. induction s as [|c s IH]; intros k; simpl; [discriminate|].
  destruct k; [|apply IH].
  destruct (startsWith sep (String c s)); [discriminate|].
  specialize (IH 0). destruct (split_on sep 0 s); [congruence | discriminate].
Qed.

Lemma removelast_cons_first (c : ascii) (p : string) (ps : list string) :
  ps <> [] ->
  removelast (cons_first c (p :: ps)) = String c p :: removelast ps.
Proof. destruct ps; [congruence | reflexivity]. Qed.

Lemma last_cons_first (c : ascii) (p : string) (ps : list string) (d : string) :
  ps <> [] -> last (cons_first c (p :: ps)) d = last ps d.
Proof. destruct ps; [congruence | reflexivity]. Qed.

(** A text shorter than the separator is one piece. *)
Lemma split_on_short (sep s : string) :
  String.length s < String.length sep -> split_on sep 0 s = [s].
Proof.
  induction s as [|c s IH]; intros L; [reflexivity|].
  simpl in L. cbn [split_on].
  destruct (startsWith sep (String c s)) eqn:E.
  - apply startsWith_length in E. simpl in E. lia.
  - rewrite IH by lia. reflexivity.
Qed.

(** A split into one piece found no separator: the piece is the text. *)
Lemma split_on_single (sep s p : string) : split_on sep 0 s = [p] -> p = s.
Proof.
  revert p. induction s as [|c s IH]; intros p; cbn [split_on].
  - congruence.
  - destruct (startsWith sep (String c s)).
    + intros H. injection H as _ H. now apply split_on_not_nil in H.
    + destruct (split_on sep 0 s) as [|q [|q' qs]] eqn:E; cbn.
      * now apply split_on_not_nil in E.
      * intros H. injection H as <-. f_equal. now apply IH.
      * discriminate.
Qed.

(** The text after the last separator holds none. *)
Lemma split_on_last_single (sep : string) (k : nat) (s : string) :
  split_on sep 0 (last (split_on sep k s) "") = [last (split_on sep k s) ""].
Proof.
  revert k. induction s as [|c s IH]; intros k; [reflexivity|].
  cbn [split_on]. destruct k as [|k]; [|apply IH].
  destruct (startsWith sep (String c s)) eqn:E.
  - specialize (IH (String.length sep - 1)).
    destruct (split_on sep (String.length sep - 1) s) eqn:X;
      [now apply split_on_not_nil in X | exact IH].
  - destruct (split_on sep 0 s) as [|p [|p' ps]] eqn:X.
    + now apply split_on_not_nil in X.
    + pose proof (split_on_single _ _ _ X) as ->. cbn [cons_first last].
      cbn [split_on]. rewrite E, X. reflexivity.
    + rewrite last_cons_first by discriminate.
      specialize (IH 0). rewrite X in IH. exact IH.
Qed.

(** What is split off a text stays split off when more text follows: only the
    piece after the last separator is read again. *)
Lemma split_on_app (sep : string) (s t : string) (k : nat) :
  k <= String.length s ->
  split_on sep k (s ++ t)%string =
  removelast (split_on sep k s) ++ split_on sep 0 (last (split_on sep k s) "" ++ t)%string.
Proof.
  revert k. induction s as [|c s IH]; intros k L.
  - simpl in L. replace k with 0 by lia. reflexivity.
  - simpl in L. cbn [String.append split_on].
    destruct k as [|k]; [|apply IH; lia].
    destruct (startsWith sep (String c s)) eqn:E.
    + pose proof (startsWith_app _ _ t E) as E'. cbn [String.append] in E'. rewrite E'.
      pose proof (startsWith_length _ _ E) as Len. simpl in Len.
      rewrite IH by lia.
      destruct (split_on sep (String.length sep - 1) s) eqn:X;
        [now apply split_on_not_nil in X | reflexivity].
    + destruct (startsWith sep (String c (s ++ t))) eqn:E'.
      * assert (Short : String.length s < String.length sep).
        { destruct (Nat.lt_ge_cases (String.length s) (String.length sep)) as [|Fit]; [assumption|].
          destruct (Nat.eq_dec (String.length sep) 0) as [Z|NZ].
          - destruct sep; [discriminate E | discriminate Z].
          - rewrite (startsWith_app_fits sep (String c s) t) in E;
              [discriminate | exact E' | simpl; lia]. }
        rewrite (split_on_short sep s Short). cbn [cons_first removelast last app String.append].
        cbn [split_on]. rewrite E'. reflexivity.
      * rewrite IH by lia.
        destruct (split_on sep 0 s) as [|p [|p' ps]] eqn:X.
        -- now apply split_on_not_nil in X.
        -- apply split_on_single in X. subst p.
           cbn [cons_first removelast last app String.append split_on].
           rewrite E'. reflexivity.
        -- rewrite removelast_cons_first, last_cons_first by discriminate.
           reflexivity.
Qed.

(** The frames of a buffer and the tail it keeps are those of the buffer's
    tail once the frames before it are taken off. *)
Lemma split_app (sep s t : string) :
  split sep (s ++ t)%string =
  removelast (split sep s) ++ split sep (last (split sep s) "" ++ t)%string.
Proof. unfold split. apply split_on_app. lia. Qed.

End Splitting.

(** ** The log is only ever added to *)

Lemma extends_refl (l : list string) : extends l l.
Proof. exists []. now rewrite app_nil_r. Qed.

Lemma extends_app (l added : list string) : extends l (l ++ added).
Proof. now exists added. Qed.

Lemma extends_trans (a b c : list string) : extends a b -> extends b c -> extends a c.
Proof. intros [x ->] [y ->]. exists (x ++ y). now rewrite app_assoc. Qed.

Create HintDb console.
#[local] Hint Resolve extends_refl extends_app : console.

Section Handlers.

Variable JSON_parse : string -> option JValue.
Variable String_ : Value -> string.
Variable JSON_stringify : Value -> string.
Variable toLocaleTimeString : nat -> string.

#[local] Abbreviation pushLog := (pushLog toLocaleTimeString).
#[local] Abbreviation on_event := (on_event String_ JSON_stringify toLocaleTimeString).
#[local] Abbreviation on_payload :=
  (on_payload JSON_parse String_ JSON_stringify toLocaleTimeString).
#[local] Abbreviation for_lines :=
  (for_lines JSON_parse String_ JSON_stringify toLocaleTimeString).
#[local] Abbreviation for_parts :=
  (for_parts JSON_parse String_ JSON_stringify toLocaleTimeString).
#[local] Abbreviation read_loop :=
  (read_loop JSON_parse String_ JSON_stringify toLocaleTimeString).
#[local] Abbreviation consume :=
  (consume JSON_parse String_ JSON_stringify toLocaleTimeString).
#[local] Abbreviation runAnalyze :=
  (runAnalyze JSON_parse String_ JSON_stringify toLocaleTimeString).
#[local] Abbreviation runExport :=
  (runExport JSON_parse String_ JSON_stringify toLocaleTimeString).
#[local] Abbreviation dispatch_all :=
  (dispatch_all JSON_parse String_ JSON_stringify toLocaleTimeString).
#[local] Abbreviation analyze_click := (analyze_click toLocaleTimeString).
#[local] Abbreviation export_click := (export_click toLocaleTimeString).
#[local] Abbreviation caught := (caught toLocaleTimeString).
#[local] Abbreviation perform :=
  (perform JSON_parse String_ JSON_stringify toLocaleTimeString).
#[local] Abbreviation run := (run JSON_parse String_ JSON_stringify toLocaleTimeString).
#[local] Abbreviation carries_dbg := (carries_dbg JSON_parse).
#[local] Abbreviation dbg_of := (dbg_of JSON_parse).

Lemma pushLog_logs (message : string) (st : State) :
  logs (pushLog message st) = logs st ++ [stamp (toLocaleTimeString (clock st)) message].
Proof. reflexivity. Qed.

Lemma append_debug_logs_logs (data : Value) (st : State) :
  logs (append_debug_logs data st) =
  logs st ++ (if streamingReceived st then [] else backend_lines data).
Proof.
  unfold append_debug_logs, backend_lines, debug_logs_of.
  destruct (streamingReceived st); cbn [negb]; [now rewrite app_nil_r|].
  destruct (prop data "debug_logs") as [[| | | |items|]|]; cbn [string_items map];
    try now rewrite app_nil_r.
  destruct (string_items items); [now rewrite app_nil_r | reflexivity].
Qed.

Lemma append_debug_logs_rest (data : Value) (st : State) :
  response (append_debug_logs data st) = response st /\
  finalLinks (append_debug_logs data st) = finalLinks st /\
  error (append_debug_logs data st) = error st /\
  streamingReceived (append_debug_logs data st) = streamingReceived st /\
  fetched (append_debug_logs data st) = fetched st.
Proof.
  unfold append_debug_logs.
  destruct (negb (streamingReceived st)); [|now repeat split].
  destruct (prop data "debug_logs") as [[| | | |items|]|]; try now repeat split.
  destruct (string_items items); now repeat split.
Qed.

(** What a [result] event adds to the log, in either session. *)
Lemma on_result_logs (ph : Phase) (data : Value) (st : State) :
  logs (on_result ph data st) =
  logs st ++ (if is_object data && negb (streamingReceived st)
              then backend_lines data else []).
Proof.
  destruct ph; cbn [on_result]; unfold analyze_result, export_result;
    (destruct (is_object data); cbn [andb]; [|now rewrite app_nil_r]);
    rewrite append_debug_logs_logs;
    repeat match goal with |- context [match ?x with Some _ => _ | None => _ end] =>
             destruct x end;
    cbn; now destruct (streamingReceived st).
Qed.

Lemma on_result_streamingReceived (ph : Phase) (data : Value) (st : State) :
  streamingReceived (on_result ph data st) = streamingReceived st.
Proof.
  destruct ph; cbn [on_result]; unfold analyze_result, export_result;
    (destruct (is_object data); [|reflexivity]);
    rewrite (proj1 (proj2 (proj2 (proj2 (append_debug_logs_rest _ _)))));
    repeat match goal with |- context [match ?x with Some _ => _ | None => _ end] =>
             destruct x end;
    reflexivity.
Qed.

Lemma on_event_extends (ph : Phase) (ev data : Value) (st : State) :
  extends (logs st) (logs (fst (on_event ph ev data st))).
Proof.
  unfold Console.on_event.
  destruct (is_string "dbg" ev); [cbn; auto with console|].
  destruct (is_string "result" ev); [cbn [fst]; rewrite on_result_logs; auto with console|].
  destruct (is_string "done" ev); cbn; auto with console.
Qed.

(** The three ways a data line is handled: the raw payload is logged, with
    the ref as it was or set, or the envelope reaches its branch. *)
Lemma on_payload_cases (ph : Phase) (payloadRaw : string) (st : State) :
  on_payload ph payloadRaw st = (pushLog ("[BE] " ++ payloadRaw) st, false) \/
  on_payload ph payloadRaw st =
    (pushLog ("[BE] " ++ payloadRaw) (setStreamingReceived true st), false) \/
  exists payload,
    JSON_parse payloadRaw = Some payload /\
    on_payload ph payloadRaw st = on_event ph (get payload "event") (get payload "data") st.
Proof.
  unfold Console.on_payload.
  destruct (JSON_parse payloadRaw) as [payload|]; [|now left].
  destruct payload; [now left|..]; cbv zeta;
    (destruct (is_string "dbg" _ && String_throws _); [now right; left|]);
    (destruct (negb _ && String_throws _); [now left|]);
    right; right; eexists; split; reflexivity.
Qed.

Lemma on_payload_extends (ph : Phase) (payloadRaw : string) (st : State) :
  extends (logs st) (logs (fst (on_payload ph payloadRaw st))).
Proof.
  destruct (on_payload_cases ph payloadRaw st) as [-> | [-> | [payload [_ ->]]]];
    [cbn; auto with console.. | apply on_event_extends].
Qed.

Lemma for_lines_extends (ph : Phase) (lines : list string) (st : State) :
  extends (logs st) (logs (fst (for_lines ph lines st))).
Proof.
  revert st. induction lines as [|line rest IH]; intros st; cbn [Console.for_lines fst];
    [auto with console|].
  destruct (startsWith ":" line); [apply IH|].
  destruct (startsWith "data:" line); cbn [negb]; [|apply IH].
  pose proof (on_payload_extends ph (trim (slice (String.length "data:") line)) st) as E.
  destruct (on_payload ph _ st) as [st' finished]. cbn [fst] in E.
  destruct finished; [exact E|].
  eapply extends_trans; [exact E | apply IH].
Qed.

Lemma for_parts_extends (ph : Phase) (parts : list string) (st : State) (finished : bool) :
  extends (logs st) (logs (fst (for_parts ph parts st finished))).
Proof.
  revert st finished.
  induction parts as [|part rest IH]; intros st finished; cbn [Console.for_parts fst];
    [auto with console|].
  pose proof (for_lines_extends ph (lines_of part) st) as E.
  destruct (for_lines ph (lines_of part) st) as [st' broke]. cbn [fst] in E.
  eapply extends_trans; [exact E | apply IH].
Qed.

Lemma read_loop_extends (ph : Phase) (reads : list Read) (buf : string) (st : State) :
  extends (logs st) (logs (fst (read_loop ph reads buf st))).
Proof.
  revert buf st.
  induction reads as [|[text|message] rest IH]; intros buf st;
    cbn [Console.read_loop fst]; auto with console.
  pose proof (for_parts_extends ph
                (removelast (split (LF ++ LF) (buf ++ text))) st false) as E.
  destruct (for_parts ph _ st false) as [st' finished]. cbn [fst] in E.
  destruct finished; [exact E|].
  eapply extends_trans; [exact E | apply IH].
Qed.

Lemma consume_extends (ph : Phase) (res : Fetched) (st : State) :
  extends (logs st) (logs (fst (consume ph res st))).
Proof.
  destruct res; cbn [Console.consume fst]; auto with console.
  apply read_loop_extends.
Qed.

Lemma runExport_extends (canExport : bool) (res : Fetched) (st : State) :
  extends (logs st) (logs (runExport canExport res st)).
Proof.
  unfold Console.runExport.
  destruct (negb (truthy (response st)) || negb canExport); [cbn; auto with console|].
  match goal with |- context [consume ?ph ?r ?s] =>
    pose proof (consume_extends ph r s) as E; destruct (consume ph r s) as [st' thrown]
  end.
  cbn [fst] in E. cbn in E.
  eapply extends_trans; [apply extends_app with (added := [stamp (toLocaleTimeString (clock st)) msg_export_started])|].
  eapply extends_trans; [exact E|].
  destruct thrown; cbn; auto with console.
Qed.

(** Once validation has passed, [runAnalyze] starts the log afresh: whatever
    it held, it now opens with the line that announces the analysis. *)
Lemma runAnalyze_restarts (id : string) (ref : option string) (files : list string)
  (res : Fetched) (st : State) :
  id <> "" -> files <> [] ->
  extends [stamp (toLocaleTimeString (clock st)) msg_analyze_started]
    (logs (runAnalyze id ref files res st)).
Proof.
  intros Hid Hfiles. unfold Console.runAnalyze.
  destruct (String.eqb_spec id ""); [contradiction|].
  destruct files; [contradiction|]. cbn [length Nat.eqb].
  match goal with |- context [consume ?ph ?r ?s] =>
    pose proof (consume_extends ph r s) as E; destruct (consume ph r s) as [st' thrown]
  end.
  cbn in E.
  eapply extends_trans; [exact E|].
  destruct thrown; cbn; auto with console.
Qed.

(** A payload that parses to something other than [null], and on whose
    event and data [String] returns, is handled as the envelope it is. *)
Lemma on_payload_envelope (ph : Phase) (payloadRaw : string) (payload : JValue) (st : State) :
  JSON_parse payloadRaw = Some payload -> payload <> JNull ->
  String_throws (get payload "event") = false ->
  String_throws (get payload "data") = false ->
  on_payload ph payloadRaw st = on_event ph (get payload "event") (get payload "data") st.
Proof.
  intros Hparse Hnull Hev Hdata. unfold Console.on_payload. rewrite Hparse, Hev, Hdata.
  rewrite !andb_false_r.
  destruct payload; [contradiction | reflexivity..].
Qed.

(** A handler is its steps: the click, the stream, the [catch] when
    something was thrown, the [finally]. *)
Lemma runExport_steps (memo : bool) (res : Fetched) (st : State) :
  runExport memo res st =
  if negb (truthy (response st)) || negb memo then export_click memo st
  else
    settled Exporting
      match snd (consume Exporting res (export_click memo st)) with
      | Some message => caught Exporting message (fst (consume Exporting res (export_click memo st)))
      | None => fst (consume Exporting res (export_click memo st))
      end.
Proof.
  unfold Console.runExport, Lifetime.export_click.
  destruct (negb (truthy (response st)) || negb memo); [reflexivity|].
  now destruct (consume Exporting res _) as [st' [message|]].
Qed.

Lemma runAnalyze_steps (id : string) (ref : option string) (files : list string)
  (res : Fetched) (st : State) :
  runAnalyze id ref files res st =
  if String.eqb id "" || Nat.eqb (length files) 0 then analyze_click id ref files st
  else
    settled Analyzing
      match snd (consume Analyzing res (analyze_click id ref files st)) with
      | Some message =>
          caught Analyzing message (fst (consume Analyzing res (analyze_click id ref files st)))
      | None => fst (consume Analyzing res (analyze_click id ref files st))
      end.
Proof.
  unfold Console.runAnalyze, Lifetime.analyze_click.
  destruct (String.eqb id ""); [reflexivity|].
  destruct (Nat.eqb (length files) 0); [reflexivity|]. cbn [orb].
  now destruct (consume Analyzing res _) as [st' [message|]].
Qed.

Lemma analyze_click_logs (id : string) (ref : option string) (files : list string)
  (st : State) :
  logs (analyze_click id ref files st) =
  if String.eqb id "" || Nat.eqb (length files) 0 then logs st
  else [("[" ++ toLocaleTimeString (clock st) ++ "] " ++ msg_analyze_started)%string].
Proof.
  unfold Lifetime.analyze_click.
  destruct (String.eqb id ""); [reflexivity|].
  now destruct (Nat.eqb (length files) 0).
Qed.

Lemma export_click_logs (memo : bool) (st : State) :
  logs (export_click memo st) =
  logs st ++ (if negb (truthy (response st)) || negb memo then []
              else [("[" ++ toLocaleTimeString (clock st) ++ "] " ++ msg_export_started)%string]).
Proof.
  unfold Lifetime.export_click.
  destruct (negb (truthy (response st)) || negb memo); [cbn; now rewrite app_nil_r | reflexivity].
Qed.

(** C9.  The log is append-only.  Handling a data line leaves the lines
    already logged in place and at most adds lines behind them, and so does
    every step either handler takes, whatever the other is doing meanwhile,
    but one: the click that starts an analysis, once validation has passed,
    clears the log and starts it again from the line announcing the analysis.
    The loops over the lines, the frames and the chunks keep what each of their
    steps logged.  The [catch] of a handler adds the one line reporting the
    failure behind the lines there are, those logged during the stream
    included: the log a run of [runExport] or [runAnalyze] leaves is the log
    at the end of the stream, followed by that line if something was thrown
    (a rejected fetch, a bad status, a missing body or a failed read), and by
    nothing otherwise. *)
Theorem logs_append_only :
  (forall ph payloadRaw st,
      extends (logs st) (logs (fst (on_payload ph payloadRaw st)))) /\
  (forall ph res st,
      extends (logs st) (logs (fst (consume ph res st)))) /\
  (forall canExport res st,
      extends (logs st) (logs (runExport canExport res st))) /\
  (forall id ref files res st,
      (id = "" \/ files = [] -> logs (runAnalyze id ref files res st) = logs st) /\
      (id <> "" -> files <> [] ->
       extends [stamp (toLocaleTimeString (clock st)) msg_analyze_started]
         (logs (runAnalyze id ref files res st)))) /\
  (forall action st,
      extends (logs st) (logs (perform action st)) \/
      exists id ref files,
        action = Click_analyze id ref files /\ id <> "" /\ files <> [] /\
        logs (perform action st) =
          [("[" ++ toLocaleTimeString (clock st) ++ "] " ++ msg_analyze_started)%string]) /\
  (forall ph message st,
      logs (caught ph message st) =
      logs st ++ [("[" ++ toLocaleTimeString (clock st) ++ "] " ++ failed_message ph)%string]) /\
  (forall ph line rest st,
      startsWith "data:" line = true ->
      extends (logs (fst (on_payload ph (trim (slice 5 line)) st)))
        (logs (fst (for_lines ph (line :: rest) st)))) /\
  (forall ph lines st,
      extends (logs st) (logs (fst (for_lines ph lines st)))) /\
  (forall ph part rest st finished,
      extends (logs (fst (for_lines ph (lines_of part) st)))
        (logs (fst (for_parts ph (part :: rest) st finished)))) /\
  (forall ph text rest buf st,
      extends (logs (fst (for_parts ph (removelast (split (LF ++ LF) (buf ++ text))) st false)))
        (logs (fst (read_loop ph (Chunk text :: rest) buf st)))) /\
  (forall memo res st,
      negb (truthy (response st)) || negb memo = false ->
      logs (export_click memo st) =
        logs st ++ [("[" ++ toLocaleTimeString (clock st) ++ "] " ++ msg_export_started)%string] /\
      logs (runExport memo res st) =
        logs (fst (consume Exporting res (export_click memo st)))
          ++ match snd (consume Exporting res (export_click memo st)) with
             | Some _ =>
                 [("[" ++ toLocaleTimeString
                            (clock (fst (consume Exporting res (export_click memo st))))
                       ++ "] " ++ msg_export_failed)%string]
             | None => []
             end) /\
  (forall id ref files res st,
      id <> "" -> files <> [] ->
      logs (analyze_click id ref files st) =
        [("[" ++ toLocaleTimeString (clock st) ++ "] " ++ msg_analyze_started)%string] /\
      logs (runAnalyze id ref files res st) =
        logs (fst (consume Analyzing res (analyze_click id ref files st)))
          ++ match snd (consume Analyzing res (analyze_click id ref files st)) with
             | Some _ =>
                 [("[" ++ toLocaleTimeString
                            (clock (fst (consume Analyzing res (analyze_click id ref files st))))
                       ++ "] " ++ msg_analyze_failed)%string]
             | None => []
             end).
Proof.
  split; [exact on_payload_extends|].
  split; [exact consume_extends|].
  split; [exact runExport_extends|].
  split.
  { intros id ref files res st. split.
    - intros [-> | ->]; unfold Console.runAnalyze; [reflexivity|].
      now destruct (String.eqb id "").
    - apply runAnalyze_restarts. }
  split.
  { intros [id ref files|memo|ph payloadRaw|ph message|ph] st; cbn [Lifetime.perform].
    - rewrite analyze_click_logs.
      destruct (String.eqb_spec id "") as [->|Hid]; [left; cbn; auto with console|].
      destruct files as [|file files]; [left; cbn; auto with console|].
      right. exists id, ref, (file :: files). now repeat split.
    - left. rewrite export_click_logs. auto with console.
    - left. apply on_payload_extends.
    - left. cbn. auto with console.
    - left. destruct ph; cbn; auto with console. }
  split; [reflexivity|].
  split.
  { intros ph line rest st Hdata. cbn [Console.for_lines].
    rewrite (startsWith_data_not_comment line Hdata), Hdata. cbn [negb String.length].
    destruct (on_payload ph _ st) as [st' finished]. cbn [fst].
    destruct finished; [cbn; auto with console | apply for_lines_extends]. }
  split; [exact for_lines_extends|].
  split.
  { intros ph part rest st finished. cbn [Console.for_parts].
    destruct (for_lines ph (lines_of part) st) as [st' broke]. cbn [fst].
    apply for_parts_extends. }
  split.
  { intros ph text rest buf st. cbn [Console.read_loop].
    destruct (for_parts ph _ st false) as [st' finished]. cbn [fst].
    destruct finished; [cbn; auto with console | apply read_loop_extends]. }
  split.
  { intros memo res st Hgate. rewrite runExport_steps, export_click_logs, Hgate.
    split; [reflexivity|].
    destruct (consume Exporting res (export_click memo st)) as [st' [message|]];
      cbn; now rewrite ?app_nil_r. }
  intros id ref files res st Hid Hfiles.
  assert (Hgate : String.eqb id "" || Nat.eqb (length files) 0 = false).
  { destruct (String.eqb_spec id ""); [contradiction|]. now destruct files. }
  rewrite runAnalyze_steps, analyze_click_logs, Hgate.
  split; [reflexivity|].
  destruct (consume Analyzing res (analyze_click id ref files st)) as [st' [message|]];
    cbn; now rewrite ?app_nil_r.
Qed.

(** C8.  [runAnalyze] called with an empty center id or with no OCR file
    only sets the error message: nothing is fetched, and the log, the result
    and the links stay as they were. *)
Theorem analyze_validation_abort (id : string) (ref : option string)
  (files : list string) (res : Fetched) (st : State) :
  id = "" \/ files = [] ->
  exists message,
    runAnalyze id ref files res st = setError (Some message) st /\
    (message = msg_no_center \/ message = msg_no_files) /\
    fetched (runAnalyze id ref files res st) = fetched st /\
    logs (runAnalyze id ref files res st) = logs st /\
    response (runAnalyze id ref files res st) = response st /\
    finalLinks (runAnalyze id ref files res st) = finalLinks st.
Proof.
  intros H. unfold Console.runAnalyze.
  destruct (String.eqb id "") eqn:E.
  - exists msg_no_center. repeat split; auto.
  - destruct H as [-> | ->]; [discriminate E|].
    exists msg_no_files. repeat split; auto.
Qed.

(** C7.  A data line whose payload [JSON.parse] rejects raises nothing and
    does not end the loop over the lines: the handler adds exactly one line to
    the log, which reads [[time] [BE] ] followed by the raw payload, letter
    for letter, changes nothing else of the component's state, and goes on
    with the lines that follow. *)
Theorem malformed_payload_logged_raw (ph : Phase) (line : string)
  (rest : list string) (st : State) :
  startsWith "data:" line = true ->
  JSON_parse (trim (slice 5 line)) = None ->
  exists st',
    for_lines ph (line :: rest) st = for_lines ph rest st' /\
    logs st' =
      logs st
        ++ [("[" ++ toLocaleTimeString (clock st) ++ "] [BE] " ++ trim (slice 5 line))%string] /\
    response st' = response st /\
    finalLinks st' = finalLinks st /\
    error st' = error st /\
    streamingReceived st' = streamingReceived st /\
    fetched st' = fetched st /\
    analyzing st' = analyzing st /\
    exporting st' = exporting st.
Proof.
  intros Hdata Hbad.
  exists (pushLog ("[BE] " ++ trim (slice 5 line)) st).
  split; [|now repeat split].
  cbn [Console.for_lines].
  rewrite (startsWith_data_not_comment line Hdata), Hdata. cbn [negb String.length].
  unfold Console.on_payload. rewrite Hbad. reflexivity.
Qed.

(** C6 as the code has it.  Every data line of a frame is handled, in the
    order of the lines, not the first alone: the loop over the lines hands the
    payload of each line that starts with [data:] to the handler, and stops
    only behind a payload that ends the session. *)
Theorem for_lines_dispatches_every_data_line (ph : Phase) (lines : list string)
  (st : State) :
  for_lines ph lines st = dispatch_all ph (data_payloads lines) st.
Proof.
  revert st. induction lines as [|line rest IH]; intros st; [reflexivity|].
  cbn [Console.for_lines]. unfold data_payloads. cbn [filter].
  destruct (startsWith "data:" line) eqn:Hdata.
  - rewrite (startsWith_data_not_comment line Hdata). cbn [negb map Session.dispatch_all].
    destruct (on_payload ph _ st) as [st' finished].
    destruct finished; [reflexivity | apply IH].
  - cbn [negb]. destruct (startsWith ":" line); apply IH.
Qed.

(** ** The result and the ref *)

Lemma lookup_set_field_other (k k' : string) (v : JValue) (fields : list (string * JValue)) :
  k' <> k -> lookup k' (set_field k v fields) = lookup k' fields.
Proof.
  intros Hk. induction fields as [|[k0 v0] rest IH]; cbn [set_field lookup].
  - destruct (String.eqb_spec k k'); [congruence | reflexivity].
  - destruct (String.eqb_spec k0 k) as [->|]; cbn [lookup].
    + destruct (String.eqb_spec k k'); [congruence | reflexivity].
    + destruct (String.eqb k0 k'); [reflexivity | exact IH].
Qed.

Lemma lookup_set_field_same (k : string) (v : JValue) (fields : list (string * JValue)) :
  lookup k (set_field k v fields) = Some v.
Proof.
  induction fields as [|[k0 v0] rest IH]; cbn [set_field lookup].
  - now rewrite String.eqb_refl.
  - destruct (String.eqb_spec k0 k) as [->|N]; cbn [lookup].
    + now rewrite String.eqb_refl.
    + destruct (String.eqb_spec k0 k); [contradiction | exact IH].
Qed.

Lemma analyze_result_response (data : Value) (st : State) :
  response (analyze_result data st) = if is_object data then data else response st.
Proof.
  unfold analyze_result. destruct (is_object data); [|reflexivity].
  rewrite (proj1 (append_debug_logs_rest _ _)).
  now destruct (truthy_prop data "ocr_snapshot_url"),
              (truthy_prop data "output_spreadsheet_url").
Qed.

Lemma export_result_response (data : Value) (st : State) :
  response (export_result data st) =
  if is_object data then
    match truthy_prop data "output_spreadsheet_url", response st with
    | Some u, Some p =>
        if truthy (Some p) then Some (spread_with p "output_spreadsheet_url" u) else Some p
    | _, _ => response st
    end
  else response st.
Proof.
  unfold export_result. destruct (is_object data); [|reflexivity].
  rewrite (proj1 (append_debug_logs_rest _ _)).
  destruct (truthy_prop data "output_spreadsheet_url"); [|reflexivity].
  cbn. now destruct (response st).
Qed.

Lemma on_event_result (ph : Phase) (data : Value) (st : State) :
  on_event ph (Some (JString "result")) data st = (on_result ph data st, false).
Proof. reflexivity. Qed.

Lemma on_event_streamingReceived (ph : Phase) (ev data : Value) (st : State) :
  streamingReceived (fst (on_event ph ev data st)) =
  streamingReceived st || is_string "dbg" ev.
Proof.
  unfold Console.on_event.
  destruct (is_string "dbg" ev); [cbn; now rewrite orb_true_r|].
  rewrite orb_false_r.
  destruct (is_string "result" ev); [apply on_result_streamingReceived|].
  now destruct (is_string "done" ev).
Qed.

(** A data line sets the ref when it carries a [dbg] event, and no other
    step touches it. *)
Lemma on_payload_streamingReceived (ph : Phase) (payloadRaw : string) (st : State) :
  streamingReceived (fst (on_payload ph payloadRaw st)) =
  streamingReceived st || carries_dbg payloadRaw.
Proof.
  unfold Console.on_payload, Lifetime.carries_dbg.
  destruct (JSON_parse payloadRaw) as [payload|]; [|cbn; now rewrite orb_false_r].
  destruct payload; [cbn; now rewrite orb_false_r|..]; cbv zeta;
    (destruct (is_string "dbg" _) eqn:Hdbg; cbn [andb orb negb];
     [ destruct (String_throws _);
       [ cbn; now rewrite orb_true_r
       | now rewrite on_event_streamingReceived, Hdbg ]
     | destruct (negb _ && String_throws _);
       [ cbn; now rewrite orb_false_r
       | now rewrite on_event_streamingReceived, Hdbg ] ]).
Qed.

Lemma perform_streamingReceived (action : Action) (st : State) :
  streamingReceived (perform action st) =
  streamingReceived st || (dbg_of Analyzing action || dbg_of Exporting action).
Proof.
  destruct action as [id ref files|memo|ph payloadRaw|ph message|ph];
    cbn [Lifetime.perform Lifetime.dbg_of orb]; try (rewrite orb_false_r).
  - unfold Lifetime.analyze_click. destruct (String.eqb id ""); [reflexivity|].
    now destruct (Nat.eqb (length files) 0).
  - unfold Lifetime.export_click. now destruct (negb (truthy (response st)) || negb memo).
  - rewrite on_payload_streamingReceived. destruct ph; cbn [same_phase andb orb];
      now rewrite ?orb_false_r.
  - reflexivity.
  - now destruct ph.
Qed.

Lemma run_streamingReceived (actions : list Action) (st : State) :
  streamingReceived (run actions st) =
  streamingReceived st
  || (existsb (dbg_of Analyzing) actions || existsb (dbg_of Exporting) actions).
Proof.
  revert st. induction actions as [|action rest IH]; intros st;
    cbn [Lifetime.run fold_left existsb].
  - now rewrite orb_false_r.
  - fold (run rest (perform action st)). rewrite IH, perform_streamingReceived.
    destruct (streamingReceived st), (dbg_of Analyzing action), (dbg_of Exporting action),
      (existsb (dbg_of Analyzing) rest), (existsb (dbg_of Exporting) rest); reflexivity.
Qed.

(** A [result] event reaches its branch. *)
Lemma on_payload_result (ph : Phase) (payloadRaw : string) (payload : JValue) (st : State) :
  JSON_parse payloadRaw = Some payload ->
  is_string "result" (get payload "event") = true ->
  on_payload ph payloadRaw st = (on_result ph (get payload "data") st, false).
Proof.
  intros Hparse Hev.
  assert (Hdbg : is_string "dbg" (get payload "event") = false).
  { destruct (get payload "event") as [[| | |s| |]|]; try discriminate Hev.
    cbn in Hev |- *. apply String.eqb_eq in Hev. now subst s. }
  unfold Console.on_payload. rewrite Hparse.
  destruct payload; try discriminate Hev; cbv zeta;
    rewrite Hdbg, Hev; cbn [andb orb negb]; unfold Console.on_event;
    now rewrite Hdbg, Hev.
Qed.

(** C10.  In the export session a [result] event leaves an absent result
    absent, and of a result that exists it changes at most the field
    [output_spreadsheet_url]: every other field reads as before, and the new
    result depends on nothing of the payload but that field (and on the payload
    being an object). *)
Theorem export_result_only_sets_output_url (data : Value) (st : State) :
  (response st = None ->
   response (fst (on_event Exporting (Some (JString "result")) data st)) = None) /\
  (forall prev, response st = Some prev ->
     exists now,
       response (fst (on_event Exporting (Some (JString "result")) data st)) = Some now /\
       forall k, k <> "output_spreadsheet_url" -> get now k = get prev k) /\
  (forall other,
     is_object other = is_object data ->
     prop other "output_spreadsheet_url" = prop data "output_spreadsheet_url" ->
     response (fst (on_event Exporting (Some (JString "result")) other st)) =
     response (fst (on_event Exporting (Some (JString "result")) data st))).
Proof.
  rewrite on_event_result. cbn [fst on_result].
  split; [|split].
  - intros Habsent. rewrite export_result_response, Habsent.
    now destruct (is_object data), (truthy_prop data "output_spreadsheet_url").
  - intros prev Hprev. rewrite export_result_response, Hprev.
    destruct (is_object data); [|now exists prev].
    destruct (truthy_prop data "output_spreadsheet_url") as [u|]; [|now exists prev].
    destruct (truthy (Some prev)); [|now exists prev].
    exists (spread_with prev "output_spreadsheet_url" u). split; [reflexivity|].
    intros k Hk. unfold spread_with, get. cbn [own_props].
    now apply lookup_set_field_other.
  - intros other Hobj Hurl. rewrite on_event_result. cbn [fst on_result].
    rewrite !export_result_response, Hobj. unfold truthy_prop. now rewrite Hurl.
Qed.

(** C1 as the code has it.  For a [result] event whose payload is an object:
    the analyze session adopts the payload as the result whether or not one
    exists, so that of two such events the later payload alone remains; the
    export session leaves an absent result absent and overlays an existing one
    with the payload's [output_spreadsheet_url] alone, when that is truthy,
    keeping every other field. *)
Theorem result_event_replaces_or_overlays (data : Value) (st : State) :
  is_object data = true ->
  response (fst (on_event Analyzing (Some (JString "result")) data st)) = data /\
  (forall earlier,
     response (fst (on_event Analyzing (Some (JString "result")) data
                      (fst (on_event Analyzing (Some (JString "result")) earlier st))))
     = data) /\
  (response st = None ->
   response (fst (on_event Exporting (Some (JString "result")) data st)) = None) /\
  (forall prev, response st = Some prev -> truthy (Some prev) = true ->
     exists now,
       response (fst (on_event Exporting (Some (JString "result")) data st)) = Some now /\
       (forall k, k <> "output_spreadsheet_url" -> get now k = get prev k) /\
       get now "output_spreadsheet_url" =
         match truthy_prop data "output_spreadsheet_url" with
         | Some u => Some u
         | None => get prev "output_spreadsheet_url"
         end).
Proof.
  intros Hobj. rewrite !on_event_result. cbn [fst on_result].
  split; [|split; [|split]].
  - now rewrite analyze_result_response, Hobj.
  - intros earlier. rewrite on_event_result. cbn [fst on_result].
    now rewrite analyze_result_response, Hobj.
  - intros Habsent. rewrite export_result_response, Habsent, Hobj.
    now destruct (truthy_prop data "output_spreadsheet_url").
  - intros prev Hprev Htruthy. rewrite export_result_response, Hprev, Hobj, Htruthy.
    destruct (truthy_prop data "output_spreadsheet_url") as [u|].
    + exists (spread_with prev "output_spreadsheet_url" u). split; [reflexivity|].
      unfold spread_with, get. cbn [own_props]. split.
      * intros k Hk. now apply lookup_set_field_other.
      * apply lookup_set_field_same.
    + exists prev. now repeat split.
Qed.

(** C4 as the code has it.  Take a session entered with the ref
    [streamingReceivedRef] not set, and the steps the component takes from then
    on, those of the other handler included, should its session overlap this
    one.  As long as the other handler has handled no [dbg] event among them,
    a [result] event of the session whose payload is an object adds to the
    log one line for each string among its [debug_logs], behind the lines
    already there, if no [dbg] event came earlier in the session, and adds
    nothing if one did. *)
Theorem debug_logs_appended_unless_dbg_seen (ph : Phase) (actions : list Action)
  (payloadRaw : string) (payload : JValue) (st : State) :
  streamingReceived st = false ->
  JSON_parse payloadRaw = Some payload ->
  is_string "result" (get payload "event") = true ->
  is_object (get payload "data") = true ->
  existsb (dbg_of (other ph)) actions = false ->
  logs (perform (Data_line ph payloadRaw) (run actions st)) =
  logs (run actions st)
    ++ (if existsb (dbg_of ph) actions then [] else backend_lines (get payload "data")).
Proof.
  intros Hclear Hparse Hev Hobj Hother. cbn [Lifetime.perform].
  rewrite (on_payload_result ph payloadRaw payload _ Hparse Hev). cbn [fst].
  rewrite on_result_logs, run_streamingReceived, Hclear, Hobj. cbn [orb andb].
  destruct ph; cbn [other] in Hother; rewrite Hother, ?orb_false_r; cbn [orb];
    match goal with |- context [existsb ?f actions] => now destruct (existsb f actions) end.
Qed.

(** ** Where the chunks end does not matter, until a session is done *)

Lemma append_empty_r (s : string) : (s ++ "")%string = s.
Proof. induction s as [|c s IH]; [reflexivity|]. cbn. now rewrite IH. Qed.

Lemma append_assoc (a b c : string) : ((a ++ b) ++ c)%string = (a ++ b ++ c)%string.
Proof. induction a as [|x a IH]; [reflexivity|]. cbn. now rewrite IH. Qed.

(** The flag [for_parts] is entered with has no bearing on the state. *)
Lemma for_parts_flag (ph : Phase) (parts : list string) (st : State) (finished : bool) :
  for_parts ph parts st finished =
  (fst (for_parts ph parts st false), finished || snd (for_parts ph parts st false)).
Proof.
  revert st finished.
  induction parts as [|part rest IH]; intros st finished; cbn [Console.for_parts].
  - cbn. now rewrite orb_false_r.
  - destruct (for_lines ph (lines_of part) st) as [st' broke].
    rewrite (IH st' (finished || broke)), (IH st' (false || broke)).
    cbn [fst snd orb]. now rewrite orb_assoc.
Qed.

Lemma for_parts_app (ph : Phase) (a b : list string) (st : State) (finished : bool) :
  for_parts ph (a ++ b) st finished =
  for_parts ph b (fst (for_parts ph a st finished)) (snd (for_parts ph a st finished)).
Proof.
  revert st finished.
  induction a as [|part rest IH]; intros st finished; cbn [app Console.for_parts];
    [reflexivity|].
  destruct (for_lines ph (lines_of part) st) as [st' broke]. apply IH.
Qed.

(** After a batch in which a [done] event was handled, nothing more is read. *)
Lemma read_loop_stops_reading (ph : Phase) (text : string) (rest : list Read)
  (buf : string) (st : State) :
  snd (for_parts ph (removelast (split (LF ++ LF) (buf ++ text))) st false) = true ->
  read_loop ph (Chunk text :: rest) buf st =
  (fst (for_parts ph (removelast (split (LF ++ LF) (buf ++ text))) st false), None).
Proof.
  intros Hdone. cbn [Console.read_loop].
  destruct (for_parts ph _ st false) as [st' finished]. cbn [snd] in Hdone.
  now rewrite Hdone.
Qed.

(** A stream in whose frames no [done] event is handled is consumed as if it
    had come in one chunk: the frames handled are those of the joined text,
    and the text behind the last blank line is dropped. *)
Lemma read_loop_joined (ph : Phase) (chunks : list string) (buf : string) (st : State) :
  split (LF ++ LF) buf = [buf] ->
  snd (for_parts ph (removelast (split (LF ++ LF) (buf ++ join chunks))) st false) = false ->
  read_loop ph (map Chunk chunks) buf st =
  (fst (for_parts ph (removelast (split (LF ++ LF) (buf ++ join chunks))) st false), None).
Proof.
  revert buf st. induction chunks as [|text rest IH]; intros buf st Htail Hnone.
  - cbn [map join fold_right Console.read_loop].
    rewrite append_empty_r, Htail. reflexivity.
  - cbn [map Console.read_loop]. cbn [join fold_right] in Hnone |- *.
    fold (join rest) in Hnone |- *.
    rewrite <- append_assoc in Hnone |- *.
    rewrite (split_app (LF ++ LF) (buf ++ text) (join rest)) in Hnone |- *.
    rewrite removelast_app in Hnone |- * by apply split_on_not_nil.
    rewrite for_parts_app in Hnone |- *.
    destruct (for_parts ph (removelast (split (LF ++ LF) (buf ++ text))) st false)
      as [st' finished] eqn:Batch.
    cbn [fst snd] in Hnone |- *.
    rewrite for_parts_flag in Hnone. cbn [snd] in Hnone.
    apply orb_false_iff in Hnone as [-> Hnone].
    apply IH; [apply split_on_last_single | exact Hnone].
Qed.

(** Two ways of cutting one text into chunks leave the same state, when no
    [done] event is handled in the frames of the text. *)
Lemma chunking_irrelevant_before_done (ph : Phase) (chunks chunks' : list string)
  (st : State) :
  join chunks = join chunks' ->
  snd (for_parts ph (removelast (split (LF ++ LF) (join chunks))) st false) = false ->
  read_loop ph (map Chunk chunks) "" st = read_loop ph (map Chunk chunks') "" st.
Proof.
  intros Hsame Hnone.
  rewrite (read_loop_joined ph chunks "" st), (read_loop_joined ph chunks' "" st);
    cbn [String.append]; try reflexivity; try assumption.
  - now rewrite Hsame.
  - now rewrite <- Hsame.
Qed.

(** ** Links *)

Lemma strict_eq_string (a : JValue) (u : string) :
  strict_eq a (JString u) = true <-> a = JString u.
Proof.
  destruct a; cbn; try (split; [discriminate | congruence]).
  split; [intros H%String.eqb_eq; congruence | intros [= ->]; apply String.eqb_refl].
Qed.

Lemma existsb_strict_eq_string (u : string) (links : list FinalLink) :
  existsb (fun item => strict_eq (url item) (JString u)) links = true <->
  In (JString u) (map url links).
Proof.
  rewrite existsb_exists, in_map_iff. split.
  - intros [item [Hin Heq]]. apply strict_eq_string in Heq. now exists item.
  - intros [item [Heq Hin]]. exists item. split; [assumption|]. now apply strict_eq_string.
Qed.

Lemma export_result_finalLinks (data : Value) (st : State) :
  finalLinks (export_result data st) =
  if is_object data then
    match truthy_prop data "output_spreadsheet_url" with
    | Some u =>
        if existsb (fun item => strict_eq (url item) u) (finalLinks st)
        then finalLinks st
        else finalLinks st ++ [mkLink name_output_link u]
    | None => finalLinks st
    end
  else finalLinks st.
Proof.
  unfold export_result. destruct (is_object data); [|reflexivity].
  rewrite (proj1 (proj2 (append_debug_logs_rest _ _))).
  now destruct (truthy_prop data "output_spreadsheet_url").
Qed.

(** The export session does not record a url twice: with the payload's url a
    string, links whose urls differ keep differing, and a url already there
    leaves the links as they were. *)
Lemma export_result_keeps_urls_distinct (data : Value) (st : State) (u : string) :
  prop data "output_spreadsheet_url" = Some (JString u) ->
  (In (JString u) (map url (finalLinks st)) ->
   finalLinks (export_result data st) = finalLinks st) /\
  (distinct_urls (finalLinks st) -> distinct_urls (finalLinks (export_result data st))).
Proof.
  intros Hurl. rewrite export_result_finalLinks. unfold truthy_prop. rewrite Hurl.
  destruct (is_object data); [|now split].
  destruct (truthy (Some (JString u))); [|now split].
  destruct (existsb _ (finalLinks st)) eqn:Seen.
  - now split.
  - split.
    + intros Hin. apply existsb_strict_eq_string in Hin. congruence.
    + unfold distinct_urls. intros Hdistinct. rewrite map_app.
      apply NoDup_app; [assumption | repeat constructor; intros [] |].
      intros a Hin [<-|[]]. apply existsb_strict_eq_string in Hin. congruence.
Qed.

End Handlers.

(** ** The scenarios, run *)

Import Scenario.

(** C1, counterexample.  An analyze session that receives the result events
    [{a: 1}] and [{b: 2}] ends with the result [{b: 2}]: the field [a] is
    gone, where the merge law promises [{a: 1, b: 2}]. *)
Lemma merge_law_fails :
  response (analyze [result_a; result_b] mount)
    = Some (JObject [("b", JNumber (inject_Z 2))]) /\
  prop (response (analyze [result_a; result_b] mount)) "a" = None.
Proof. split; vm_compute; reflexivity. Qed.

(** C1, witness: the payload [{b: 2}] arriving where the result is [{a: 1}]. *)
Lemma result_event_replaces_or_overlays_witness :
  is_object payload_b = true /\
  response (fst (Sample.on_event Analyzing (Some (JString "result")) payload_b after_a))
    = payload_b.
Proof.
  split; [reflexivity|].
  exact (proj1 (result_event_replaces_or_overlays
                  Sample.String_ Sample.JSON_stringify Sample.toLocaleTimeString
                  payload_b after_a eq_refl)).
Defined.

(** C2, the failing input.  One chunk holds a [done] frame and a [dbg] frame
    behind it: the line of the [dbg] event is logged after the line that
    reports completion, in the analyze session and in the export session. *)
Lemma frame_behind_done_is_dispatched :
  logs (analyze [(done_frame ++ late_frame)%string] mount) =
    [stamped 0 msg_analyze_started; stamped 1 msg_analyze_done; stamped 2 "[BE] late"] /\
  skipn 3 (logs (export [(done_frame ++ late_frame)%string] after_analyze)) =
    [stamped 3 msg_export_started; stamped 4 msg_export_done; stamped 5 "[BE] late"].
Proof. split; vm_compute; reflexivity. Qed.

(** C3, the failing input.  The text of a [done] frame followed by a [result]
    frame sets the result when it comes in one chunk, and leaves it absent
    when the chunk ends between the two frames. *)
Lemma chunk_boundary_changes_state :
  join [(done_frame ++ result_a)%string] = join [done_frame; result_a] /\
  response (analyze [(done_frame ++ result_a)%string] mount)
    = Some (JObject [("a", JNumber (inject_Z 1))]) /\
  response (analyze [done_frame; result_a] mount) = None.
Proof. repeat split; vm_compute; reflexivity. Qed.

(** C4, counterexample.  An export session without any [dbg] event, run after
    an analyze session that had one, does not log the [debug_logs] of its
    result; and of the [debug_logs] [["first", 7, "third"]] only the two
    strings are logged. *)
Lemma debug_logs_dedup_fails :
  logs (export [export_without_dbg] (analyze [analyze_with_dbg] mount)) =
    [stamped 0 msg_analyze_started; stamped 1 "[BE] step1"; stamped 2 msg_analyze_done;
     stamped 3 msg_export_started; stamped 4 msg_export_done] /\
  logs (analyze [mixed_debug_logs] mount) =
    [stamped 0 msg_analyze_started; "[BE] first"; "[BE] third"].
Proof. split; vm_compute; reflexivity. Qed.

(** C4, witness: an export session entered with the ref clear, during which
    an analysis is started and reports progress without any [dbg] event; the
    result of the export session then logs its [debug_logs]. *)
Lemma debug_logs_appended_unless_dbg_seen_witness :
  streamingReceived mount = false /\
  Sample.JSON_parse Cases.logs_payload = Some Cases.logs_envelope /\
  is_string "result" (get Cases.logs_envelope "event") = true /\
  is_object (get Cases.logs_envelope "data") = true /\
  existsb (dbg_of Sample.JSON_parse (other Exporting)) Cases.analysis_meanwhile = false /\
  logs (Cases.perform (Data_line Exporting Cases.logs_payload)
          (Cases.run Cases.analysis_meanwhile mount)) =
  logs (Cases.run Cases.analysis_meanwhile mount) ++ ["[BE] exported"].
Proof.
  repeat (split; [reflexivity|]).
  exact (debug_logs_appended_unless_dbg_seen
           Sample.JSON_parse Sample.String_ Sample.JSON_stringify Sample.toLocaleTimeString
           Exporting Cases.analysis_meanwhile Cases.logs_payload Cases.logs_envelope mount
           eq_refl eq_refl eq_refl eq_refl eq_refl).
Defined.

(** C5, the failing input.  An analyze session that receives the same
    snapshot url in two result events, or one url under both keys of one
    event, holds two links with that url. *)
Lemma analyze_records_one_url_twice :
  map url (finalLinks (analyze [(snapshot ++ snapshot)%string] mount)) =
    [JString "https://sheet/1"; JString "https://sheet/1"] /\
  map url (finalLinks (analyze [same_urls] mount)) =
    [JString "https://sheet/1"; JString "https://sheet/1"] /\
  ~ distinct_urls (finalLinks (analyze [(snapshot ++ snapshot)%string] mount)).
Proof.
  split; [vm_compute; reflexivity|]. split; [vm_compute; reflexivity|].
  unfold distinct_urls. intros H. vm_compute in H.
  inversion H as [|x l Hnotin _]. apply Hnotin. now left.
Qed.

(** C6, counterexample.  A frame with two data lines logs both [dbg] events,
    the second as well as the first. *)
Lemma second_data_line_is_dispatched :
  logs (analyze [two_data_lines] mount) =
    [stamped 0 msg_analyze_started; stamped 1 "[BE] first"; stamped 2 "[BE] second"].
Proof. vm_compute. reflexivity. Qed.

(** C7, witness: the data line of scenario C. *)
Lemma malformed_payload_logged_raw_witness :
  startsWith "data:" not_json = true /\
  Sample.JSON_parse (trim (slice 5 not_json)) = None /\
  exists st',
    Sample.for_lines Analyzing [not_json] mount = Sample.for_lines Analyzing [] st' /\
    logs st' = logs mount ++ ["[0] [BE] {not json}"] /\
    response st' = response mount /\
    finalLinks st' = finalLinks mount /\
    error st' = error mount /\
    streamingReceived st' = streamingReceived mount /\
    fetched st' = fetched mount /\
    analyzing st' = analyzing mount /\
    exporting st' = exporting mount.
Proof.
  split; [reflexivity|]. split; [reflexivity|].
  exact (malformed_payload_logged_raw
           Sample.JSON_parse Sample.String_ Sample.JSON_stringify Sample.toLocaleTimeString
           Analyzing not_json [] mount eq_refl eq_refl).
Defined.

(** C8, witness: no center id, one file chosen. *)
Lemma analyze_validation_abort_witness :
  ("" = "" \/ files = []) /\
  exists message,
    Sample.runAnalyze "" None files (Body []) mount = setError (Some message) mount /\
    (message = msg_no_center \/ message = msg_no_files) /\
    fetched (Sample.runAnalyze "" None files (Body []) mount) = fetched mount /\
    logs (Sample.runAnalyze "" None files (Body []) mount) = logs mount /\
    response (Sample.runAnalyze "" None files (Body []) mount) = response mount /\
    finalLinks (Sample.runAnalyze "" None files (Body []) mount) = finalLinks mount.
Proof.
  split; [now left|].
  exact (analyze_validation_abort
           Sample.JSON_parse Sample.String_ Sample.JSON_stringify Sample.toLocaleTimeString
           "" None files (Body []) mount (or_introl eq_refl)).
Defined.

(** Scenario A: a [dbg] line, a result and [done] leave the line of the
    [dbg] event, then the line reporting completion, and the result [{x: 1}]. *)
Example scenario_A_runs :
  logs (analyze [scenario_A] mount) =
    [stamped 0 msg_analyze_started; stamped 1 "[BE] step1"; stamped 2 msg_analyze_done] /\
  response (analyze [scenario_A] mount) = Some (JObject [("x", JNumber (inject_Z 1))]).
Proof. split; vm_compute; reflexivity. Qed.

(** Scenario B: a keep-alive comment is no event and leaves no line. *)
Example scenario_B_runs :
  analyze [scenario_B] mount = analyze [] mount.
Proof. vm_compute. reflexivity. Qed.

(** Scenario C: text that is not JSON leaves one line with the raw text, and
    no error. *)
Example scenario_C_runs :
  logs (analyze [scenario_C] mount) =
    [stamped 0 msg_analyze_started; "[1] [BE] {not json}"] /\
  error (analyze [scenario_C] mount) = None.
Proof. split; vm_compute; reflexivity. Qed.

(** * More of the console *)

(** ** What a session leaves untouched *)

Section Sessions.

Variable JSON_parse : string -> option JValue.
Variable String_ : Value -> string.
Variable JSON_stringify : Value -> string.
Variable toLocaleTimeString : nat -> string.

#[local] Abbreviation pushLog := (pushLog toLocaleTimeString).
#[local] Abbreviation on_event := (on_event String_ JSON_stringify toLocaleTimeString).
#[local] Abbreviation on_payload :=
  (on_payload JSON_parse String_ JSON_stringify toLocaleTimeString).
#[local] Abbreviation for_lines :=
  (for_lines JSON_parse String_ JSON_stringify toLocaleTimeString).
#[local] Abbreviation for_parts :=
  (for_parts JSON_parse String_ JSON_stringify toLocaleTimeString).
#[local] Abbreviation read_loop :=
  (read_loop JSON_parse String_ JSON_stringify toLocaleTimeString).
#[local] Abbreviation consume :=
  (consume JSON_parse String_ JSON_stringify toLocaleTimeString).
#[local] Abbreviation runAnalyze :=
  (runAnalyze JSON_parse String_ JSON_stringify toLocaleTimeString).
#[local] Abbreviation runExport :=
  (runExport JSON_parse String_ JSON_stringify toLocaleTimeString).
#[local] Abbreviation reachable :=
  (reachable JSON_parse String_ JSON_stringify toLocaleTimeString).
#[local] Abbreviation perform :=
  (perform JSON_parse String_ JSON_stringify toLocaleTimeString).
#[local] Abbreviation run := (run JSON_parse String_ JSON_stringify toLocaleTimeString).

(** What every handled payload keeps, the whole session keeps. *)
Lemma for_lines_preserves (P : State -> Prop) (ph : Phase) :
  (forall payloadRaw st, P st -> P (fst (on_payload ph payloadRaw st))) ->
  forall lines st, P st -> P (fst (for_lines ph lines st)).
Proof.
  intros Step lines. induction lines as [|line rest IH]; intros st HP;
    cbn [Console.for_lines fst]; [exact HP|].
  destruct (startsWith ":" line); [now apply IH|].
  destruct (startsWith "data:" line); cbn [negb]; [|now apply IH].
  pose proof (Step (trim (slice (String.length "data:") line)) st HP) as HP'.
  destruct (on_payload ph _ st) as [st' finished]. cbn [fst] in HP'.
  destruct finished; [exact HP' | now apply IH].
Qed.

Lemma for_parts_preserves (P : State -> Prop) (ph : Phase) :
  (forall payloadRaw st, P st -> P (fst (on_payload ph payloadRaw st))) ->
  forall parts st finished, P st -> P (fst (for_parts ph parts st finished)).
Proof.
  intros Step parts. induction parts as [|part rest IH]; intros st finished HP;
    cbn [Console.for_parts fst]; [exact HP|].
  pose proof (for_lines_preserves P ph Step (lines_of part) st HP) as HP'.
  destruct (for_lines ph (lines_of part) st) as [st' broke]. now apply IH.
Qed.

Lemma read_loop_preserves (P : State -> Prop) (ph : Phase) :
  (forall payloadRaw st, P st -> P (fst (on_payload ph payloadRaw st))) ->
  forall reads buf st, P st -> P (fst (read_loop ph reads buf st)).
Proof.
  intros Step reads. induction reads as [|[text|message] rest IH]; intros buf st HP;
    cbn [Console.read_loop fst]; try exact HP.
  pose proof (for_parts_preserves P ph Step
                (removelast (split (LF ++ LF) (buf ++ text))) st false HP) as HP'.
  destruct (for_parts ph _ st false) as [st' finished]. cbn [fst] in HP'.
  destruct finished; [exact HP' | now apply IH].
Qed.

Lemma consume_preserves (P : State -> Prop) (ph : Phase) :
  (forall payloadRaw st, P st -> P (fst (on_payload ph payloadRaw st))) ->
  forall res st, P st -> P (fst (consume ph res st)).
Proof.
  intros Step [message|status statusText text| |reads] st HP;
    cbn [Console.consume fst]; try exact HP.
  now apply read_loop_preserves.
Qed.

(** The fields a [result] branch does not write. *)
Lemma on_result_untouched (ph : Phase) (data : Value) (st : State) :
  error (on_result ph data st) = error st /\
  analyzing (on_result ph data st) = analyzing st /\
  exporting (on_result ph data st) = exporting st /\
  clock (on_result ph data st) = clock st /\
  fetched (on_result ph data st) = fetched st.
Proof.
  assert (Tail : forall d s,
             error (append_debug_logs d s) = error s /\
             analyzing (append_debug_logs d s) = analyzing s /\
             exporting (append_debug_logs d s) = exporting s /\
             clock (append_debug_logs d s) = clock s /\
             fetched (append_debug_logs d s) = fetched s).
  { intros d s. unfold append_debug_logs.
    destruct (negb (streamingReceived s)); [|now repeat split].
    destruct (prop d "debug_logs") as [[| | | |items|]|]; try now repeat split.
    destruct (string_items items); now repeat split. }
  destruct ph; cbn [on_result]; unfold analyze_result, export_result;
    (destruct (is_object data); [|now repeat split]);
    repeat match goal with |- context [match ?x with Some _ => _ | None => _ end] =>
             destruct x end;
    match goal with |- context [append_debug_logs ?d ?s] =>
      destruct (Tail d s) as (-> & -> & -> & -> & ->) end;
    now repeat split.
Qed.

Lemma on_payload_fetched (ph : Phase) (payloadRaw : string) (st : State) :
  fetched (fst (on_payload ph payloadRaw st)) = fetched st.
Proof.
  unfold Console.on_payload, Console.on_event.
  destruct (JSON_parse payloadRaw) as [payload|]; [|reflexivity].
  destruct payload; try reflexivity;
    repeat match goal with |- context [if ?b then _ else _] => destruct b end;
    cbn [fst]; try reflexivity; apply on_result_untouched.
Qed.

Lemma on_payload_error (ph : Phase) (payloadRaw : string) (st : State) :
  error (fst (on_payload ph payloadRaw st)) = error st.
Proof.
  unfold Console.on_payload, Console.on_event.
  destruct (JSON_parse payloadRaw) as [payload|]; [|reflexivity].
  destruct payload; try reflexivity;
    repeat match goal with |- context [if ?b then _ else _] => destruct b end;
    cbn [fst]; try reflexivity; apply on_result_untouched.
Qed.

(** X1.  A frame without a data line, such as a keep-alive comment or the empty
    frame between two blank lines, is no event: handling frames of that kind
    leaves the whole state as it is and does not end the session. *)
Theorem frames_without_data_change_nothing (ph : Phase) (parts : list string)
  (st : State) (finished : bool) :
  Forall (fun part => data_payloads (lines_of part) = []) parts ->
  for_parts ph parts st finished = (st, finished).
Proof.
  assert (Lines : forall lines s, data_payloads lines = [] -> for_lines ph lines s = (s, false)).
  { induction lines as [|line rest IH]; intros s Hnone; [reflexivity|].
    cbn [Console.for_lines]. unfold data_payloads in Hnone. cbn [filter] in Hnone.
    destruct (startsWith "data:" line); [discriminate Hnone|].
    cbn [negb]. destruct (startsWith ":" line); now apply IH. }
  intros Hparts. revert st finished.
  induction Hparts as [|part rest Hpart _ IH]; intros st finished; [reflexivity|].
  cbn [Console.for_parts]. rewrite (Lines _ st Hpart), IH.
  now rewrite orb_false_r.
Qed.

(** X2.  Text that no blank line ends is never delivered: a body whose text holds
    no blank line, however it is cut into chunks, leaves the state as it is. *)
Theorem unterminated_text_is_dropped (ph : Phase) (chunks : list string) (st : State) :
  split (LF ++ LF) (join chunks) = [join chunks] ->
  read_loop ph (map Chunk chunks) "" st = (st, None).
Proof.
  intros Hnone.
  rewrite (read_loop_joined JSON_parse String_ JSON_stringify toLocaleTimeString
             ph chunks "" st); cbn [String.append]; rewrite ?Hnone; reflexivity.
Qed.

(** X3.  A data line that is not a [result] event leaves exactly one line in the
    log, whatever it carries (a [dbg] or [done] event, an event of an unknown
    kind, [null], or text that is not JSON), and leaves the result, the links
    and the error message alone. *)
Theorem other_payloads_log_one_line (ph : Phase) (payloadRaw : string) (st : State) :
  (forall payload, JSON_parse payloadRaw = Some payload ->
                   is_string "result" (get payload "event") = false) ->
  (exists line, logs (fst (on_payload ph payloadRaw st)) = logs st ++ [line]) /\
  response (fst (on_payload ph payloadRaw st)) = response st /\
  finalLinks (fst (on_payload ph payloadRaw st)) = finalLinks st /\
  error (fst (on_payload ph payloadRaw st)) = error st.
Proof.
  intros Hkind.
  assert (Event : forall ev data,
             is_string "result" ev = false ->
             (exists line, logs (fst (on_event ph ev data st)) = logs st ++ [line]) /\
             response (fst (on_event ph ev data st)) = response st /\
             finalLinks (fst (on_event ph ev data st)) = finalLinks st /\
             error (fst (on_event ph ev data st)) = error st).
  { intros ev data Hev. unfold Console.on_event. rewrite Hev.
    destruct (is_string "dbg" ev); [cbn; repeat split; eauto|].
    destruct (is_string "done" ev); cbn; repeat split; eauto. }
  destruct (on_payload_cases JSON_parse String_ JSON_stringify toLocaleTimeString
              ph payloadRaw st) as [-> | [-> | [payload [Hparse ->]]]];
    [cbn; repeat split; eauto.. | now apply Event, Hkind].
Qed.

(** X4.  A [result] event whose payload is not an object (a string, a number,
    [null], or no [data] at all) is dropped without a trace: no log line, no
    error, no change of state. *)
Theorem result_without_object_is_dropped (ph : Phase) (payloadRaw : string)
  (payload : JValue) (st : State) :
  JSON_parse payloadRaw = Some payload ->
  is_string "result" (get payload "event") = true ->
  is_object (get payload "data") = false ->
  on_payload ph payloadRaw st = (st, false).
Proof.
  intros Hparse Hev Hshape.
  assert (Hdbg : is_string "dbg" (get payload "event") = false).
  { (* one event cannot be both *)
    destruct (get payload "event") as [[| | |s| |]|]; try discriminate Hev.
    cbn in Hev |- *. apply String.eqb_eq in Hev. now subst s. }
  unfold Console.on_payload. rewrite Hparse.
  destruct payload; try discriminate Hev; cbv zeta;
    rewrite Hdbg, Hev; cbn [andb orb negb]; unfold Console.on_event;
    rewrite Hdbg, Hev; destruct ph; cbn [on_result]; unfold analyze_result, export_result;
    now rewrite Hshape.
Qed.


(** ** Whole runs *)

(** Each payload is dealt with in one of three ways. *)
Lemma on_payload_shape (ph : Phase) (payloadRaw : string) (st : State) :
  (exists message, fst (on_payload ph payloadRaw st) = pushLog message st) \/
  (exists message,
      fst (on_payload ph payloadRaw st) = pushLog message (setStreamingReceived true st)) \/
  (exists data, fst (on_payload ph payloadRaw st) = on_result ph data st).
Proof.
  assert (Event : forall ev data,
             (exists message, fst (on_event ph ev data st) = pushLog message st) \/
             (exists message,
                 fst (on_event ph ev data st) = pushLog message (setStreamingReceived true st)) \/
             (exists d, fst (on_event ph ev data st) = on_result ph d st)).
  { intros ev data. unfold Console.on_event.
    destruct (is_string "dbg" ev); [right; left; cbn; eauto|].
    destruct (is_string "result" ev); [right; right; cbn; eauto|].
    destruct (is_string "done" ev); left; cbn; eauto. }
  destruct (on_payload_cases JSON_parse String_ JSON_stringify toLocaleTimeString
              ph payloadRaw st) as [-> | [-> | [payload [_ ->]]]];
    [left; cbn; eauto | right; left; cbn; eauto | apply Event].
Qed.

Lemma analyze_result_finalLinks (data : Value) (st : State) :
  finalLinks (analyze_result data st) =
  if is_object data then
    (finalLinks st
       ++ match truthy_prop data "ocr_snapshot_url" with
          | Some u => [mkLink name_ocr_link u]
          | None => []
          end)
      ++ match truthy_prop data "output_spreadsheet_url" with
         | Some u => [mkLink name_output_link u]
         | None => []
         end
  else finalLinks st.
Proof.
  unfold analyze_result. destruct (is_object data); [|reflexivity].
  rewrite (proj1 (proj2 (append_debug_logs_rest _ _))).
  destruct (truthy_prop data "ocr_snapshot_url"),
           (truthy_prop data "output_spreadsheet_url");
    cbn; unfold add_link; now rewrite ?app_nil_r.
Qed.

Lemma truthy_prop_truthy (data : Value) (k : string) (u : JValue) :
  truthy_prop data k = Some u -> truthy (Some u) = true.
Proof.
  unfold truthy_prop. destruct (truthy (prop data k)) eqn:E; [|discriminate].
  intros H. now rewrite H in E.
Qed.

Lemma on_result_links (ph : Phase) (data : Value) (st : State) :
  exists added,
    finalLinks (on_result ph data st) = finalLinks st ++ added /\ Forall link_ok added.
Proof.
  destruct ph; cbn [on_result].
  - rewrite analyze_result_finalLinks.
    destruct (is_object data); [|exists []; now rewrite app_nil_r].
    rewrite <- app_assoc. eexists. split; [reflexivity|].
    apply Forall_app. split.
    + destruct (truthy_prop data "ocr_snapshot_url") eqn:E; constructor; [|constructor].
      split; [now apply truthy_prop_truthy in E | now left].
    + destruct (truthy_prop data "output_spreadsheet_url") eqn:E; constructor; [|constructor].
      split; [now apply truthy_prop_truthy in E | now right].
  - rewrite export_result_finalLinks.
    destruct (is_object data); [|exists []; now rewrite app_nil_r].
    destruct (truthy_prop data "output_spreadsheet_url") eqn:E;
      [|exists []; now rewrite app_nil_r].
    destruct (existsb _ (finalLinks st)); [exists []; now rewrite app_nil_r|].
    eexists. split; [reflexivity|]. constructor; [|constructor].
    split; [now apply truthy_prop_truthy in E | now right].
Qed.

Lemma on_payload_links (ph : Phase) (payloadRaw : string) (st : State) :
  exists added,
    finalLinks (fst (on_payload ph payloadRaw st)) = finalLinks st ++ added /\
    Forall link_ok added.
Proof.
  destruct (on_payload_shape ph payloadRaw st) as [[m ->]|[[m ->]|[data ->]]];
    try (exists []; cbn; now rewrite app_nil_r).
  apply on_result_links.
Qed.


Lemma consume_fetched (ph : Phase) (res : Fetched) (st : State) :
  fetched (fst (consume ph res st)) = fetched st.
Proof.
  apply (consume_preserves (fun s => fetched s = fetched st) ph); [|reflexivity].
  intros payloadRaw s <-. apply on_payload_fetched.
Qed.

(** X6.  A handler requests nothing but its own endpoint, and that at most once a
    run: never when validation stops it, once otherwise, however the stream
    goes. *)
Theorem handlers_fetch_once :
  (forall id ref files res st,
      fetched (runAnalyze id ref files res st) =
      fetched st ++ (if String.eqb id "" || Nat.eqb (length files) 0
                     then [] else [analyze_endpoint])) /\
  (forall memo res st,
      fetched (runExport memo res st) =
      fetched st ++ (if negb (truthy (response st)) || negb memo
                     then [] else [export_endpoint])).
Proof.
  pose proof consume_fetched as Whole.
  split.
  - intros id ref files res st. unfold Console.runAnalyze.
    destruct (String.eqb id ""); [cbn; now rewrite app_nil_r|].
    destruct (Nat.eqb (length files) 0); [cbn; now rewrite app_nil_r|]. cbn [orb].
    match goal with |- context [consume ?ph ?r ?s] =>
      pose proof (Whole ph r s) as E; destruct (consume ph r s) as [st' thrown]
    end.
    cbn in E. now destruct thrown.
  - intros memo res st. unfold Console.runExport.
    destruct (negb (truthy (response st)) || negb memo); [cbn; now rewrite app_nil_r|].
    match goal with |- context [consume ?ph ?r ?s] =>
      pose proof (Whole ph r s) as E; destruct (consume ph r s) as [st' thrown]
    end.
    cbn in E. now destruct thrown.
Qed.


(** ** The export gate *)

Lemma some_length_arrays (values : list JValue) :
  forallb is_array values = true ->
  some_length values = Some (existsb is_codes values).
Proof.
  induction values as [|v rest IH]; intros Harr; [reflexivity|].
  cbn [forallb] in Harr. apply andb_true_iff in Harr as [Hv Hrest].
  destruct v as [| | | |[|item items]|]; try discriminate Hv; cbn; auto.
Qed.

(** X8.  For a result of the declared shape, with [maker_cds] an object whose
    values are arrays, the memo [canExport] is computed without fault and is
    true exactly when some maker has at least one code; a result that is
    absent, or has no [maker_cds], cannot be exported. *)
Theorem canExport_of_groups (result : JValue) (groups : list (string * JValue)) :
  truthy (Some result) = true ->
  get result "maker_cds" = Some (JObject groups) ->
  forallb is_array (map snd groups) = true ->
  canExport (Some result) = Some (existsb is_codes (map snd groups)) /\
  (canExport (Some result) = Some true <->
   exists maker code codes, In (maker, JArray (code :: codes)) groups) /\
  canExport None = Some false /\
  (forall other, truthy (Some other) = true -> get other "maker_cds" = None ->
                 canExport (Some other) = Some false).
Proof.
  intros Htruthy Hgroups Harrays.
  assert (Value : canExport (Some result) = Some (existsb is_codes (map snd groups))).
  { unfold canExport. rewrite Htruthy. cbn [negb prop]. rewrite Hgroups.
    now apply some_length_arrays. }
  split; [exact Value|]. split; [|split; [reflexivity|]].
  - rewrite Value. split.
    + intros [= Hsome]. apply existsb_exists in Hsome as [codes [Hin Hcodes]].
      apply in_map_iff in Hin as [[maker v] [Hv Hin]]. cbn in Hv. subst v.
      destruct codes as [| | | |[|code codes]|]; try discriminate Hcodes.
      now exists maker, code, codes.
    + intros [maker [code [codes Hin]]]. f_equal. apply existsb_exists.
      exists (JArray (code :: codes)). split; [|reflexivity].
      apply in_map_iff. now exists (maker, JArray (code :: codes)).
  - intros other Hother Hnone. unfold canExport. rewrite Hother. cbn [negb prop].
    now rewrite Hnone.
Qed.

Lemma canExport_true_truthy (r : Value) : canExport r = Some true -> truthy r = true.
Proof. unfold canExport. destruct (truthy r); [reflexivity | discriminate]. Qed.

(** X9.  [runExport] goes by the memo of the state it is clicked in: with the
    memo false it only sets the error message, requesting and logging
    nothing; with the memo true it clears the error, requests the export
    endpoint once and logs the start of the export behind the lines there
    are. *)
Theorem export_gate (memo : bool) (res : Fetched) (st : State) :
  canExport (response st) = Some memo ->
  (memo = false -> runExport memo res st = setError (Some msg_no_result) st) /\
  (memo = true ->
   fetched (runExport memo res st) = fetched st ++ [export_endpoint] /\
   exists added,
     logs (runExport memo res st) =
     logs st ++ stamp (toLocaleTimeString (clock st)) msg_export_started :: added).
Proof.
  intros Hmemo. split; intros ->.
  - unfold Console.runExport. cbn [negb]. now rewrite orb_true_r.
  - apply canExport_true_truthy in Hmemo.
    split.
    + unfold Console.runExport. rewrite Hmemo. cbn [negb orb].
      match goal with |- context [consume ?ph ?r ?s] =>
        pose proof (consume_fetched ph r s) as E;
        destruct (consume ph r s) as [st' thrown]
      end.
      cbn in E. now destruct thrown.
    + unfold Console.runExport. rewrite Hmemo. cbn [negb orb].
      match goal with |- context [consume ?ph ?r ?s] =>
        pose proof (consume_extends JSON_parse String_ JSON_stringify toLocaleTimeString
                      ph r s) as [added E];
        destruct (consume ph r s) as [st' thrown]
      end.
      cbn in E. destruct thrown; cbn.
      * eexists. rewrite E, <- !app_assoc. cbn. reflexivity.
      * eexists. rewrite E, <- !app_assoc. cbn. reflexivity.
Qed.

(** ** What holds in every state *)

(** Handling a data line, in either session, keeps the result absent or an
    object and the links well made. *)
Lemma on_payload_keeps_shape (ph : Phase) (payloadRaw : string) (st : State) :
  (response st = None \/ is_object (response st) = true) /\
  Forall link_ok (finalLinks st) ->
  (response (fst (on_payload ph payloadRaw st)) = None \/
   is_object (response (fst (on_payload ph payloadRaw st))) = true) /\
  Forall link_ok (finalLinks (fst (on_payload ph payloadRaw st))).
Proof.
  intros (Hresp & Hlinks).
  destruct (on_payload_links ph payloadRaw st) as [added [Eq Hadded]].
  split; [|rewrite Eq; apply Forall_app; now split].
  destruct (on_payload_shape ph payloadRaw st) as [[m ->]|[[m ->]|[data ->]]];
    try exact Hresp.
  destruct ph; cbn [on_result].
  - rewrite analyze_result_response.
    destruct (is_object data) eqn:E; [now right | exact Hresp].
  - rewrite export_result_response.
    destruct (is_object data); [|exact Hresp].
    destruct (truthy_prop data "output_spreadsheet_url"); [|exact Hresp].
    destruct (response st) as [p|]; [|now left].
    destruct (truthy (Some p)); [now right | exact Hresp].
Qed.

Lemma perform_keeps_shape (action : Action) (st : State) :
  (response st = None \/ is_object (response st) = true) /\
  Forall link_ok (finalLinks st) ->
  (response (perform action st) = None \/ is_object (response (perform action st)) = true) /\
  Forall link_ok (finalLinks (perform action st)).
Proof.
  intros Keep.
  destruct action as [id ref files|memo|ph payloadRaw|ph message|ph]; cbn [Lifetime.perform].
  - unfold Lifetime.analyze_click. destruct (String.eqb id ""); [exact Keep|].
    destruct (Nat.eqb (length files) 0); [exact Keep|]. cbn. split; [now left | constructor].
  - unfold Lifetime.export_click.
    now destruct (negb (truthy (response st)) || negb memo).
  - now apply on_payload_keeps_shape.
  - exact Keep.
  - now destruct ph.
Qed.

Lemma run_reachable (actions : list Action) (st : State) :
  reachable st -> reachable (run actions st).
Proof.
  revert st. induction actions as [|action rest IH]; intros st Reach; [exact Reach|].
  cbn [Lifetime.run fold_left]. apply IH. now constructor.
Qed.

Lemma consume_reachable (ph : Phase) (res : Fetched) (st : State) :
  reachable st -> reachable (fst (consume ph res st)).
Proof.
  apply (consume_preserves reachable ph).
  intros payloadRaw s Reach. exact (reach_step _ _ _ _ (Data_line ph payloadRaw) s Reach).
Qed.

(** X10.  Whatever the clicks, whatever the backend sends and however the
    sessions of the two handlers alternate, the result is absent or an object
    (or array), never a bare value, and every link has one of the two names
    and a truthy url.  The states meant are those reached from the mounted
    component by steps of the handlers in any order; a whole run of either
    handler, from such a state, ends in such a state. *)
Theorem reachable_state_is_well_formed (st : State) :
  reachable st ->
  (response st = None \/ is_object (response st) = true) /\
  Forall link_ok (finalLinks st) /\
  (forall id ref files res, reachable (runAnalyze id ref files res st)) /\
  (forall memo res, reachable (runExport memo res st)).
Proof.
  intros Reach.
  assert (Shape : (response st = None \/ is_object (response st) = true) /\
                  Forall link_ok (finalLinks st)).
  { induction Reach as [|action st _ IH]; [cbn; split; [now left | constructor]|].
    now apply perform_keeps_shape. }
  destruct Shape as [Hresp Hlinks]. split; [exact Hresp|]. split; [exact Hlinks|].
  split.
  - intros id ref files res.
    rewrite (runAnalyze_steps JSON_parse String_ JSON_stringify toLocaleTimeString).
    pose proof (reach_step _ _ _ _ (Click_analyze id ref files) st Reach) as Click.
    cbn [Lifetime.perform] in Click.
    destruct (String.eqb id "" || Nat.eqb (length files) 0); [exact Click|].
    apply (reach_step _ _ _ _ (Settled Analyzing)).
    pose proof (consume_reachable Analyzing res _ Click) as Stream.
    destruct (snd (consume Analyzing res _)) as [message|]; [|exact Stream].
    exact (reach_step _ _ _ _ (Caught Analyzing message) _ Stream).
  - intros memo res.
    rewrite (runExport_steps JSON_parse String_ JSON_stringify toLocaleTimeString).
    pose proof (reach_step _ _ _ _ (Click_export memo) st Reach) as Click.
    cbn [Lifetime.perform] in Click.
    destruct (negb (truthy (response st)) || negb memo); [exact Click|].
    apply (reach_step _ _ _ _ (Settled Exporting)).
    pose proof (consume_reachable Exporting res _ Click) as Stream.
    destruct (snd (consume Exporting res _)) as [message|]; [|exact Stream].
    exact (reach_step _ _ _ _ (Caught Exporting message) _ Stream).
Qed.

End Sessions.

(** ** The list of OCR files *)

Section FileList.

Import Files.

Context {X : Type}.

Lemma filter_index_all (k index : nat) (l : list X) :
  index < k ->
  map snd
    (filter (fun entry => negb (Nat.eqb (fst entry) index))
       (combine (seq k (length l)) l))
  = l.
Proof.
  revert k. induction l as [|x l IH]; intros k Hk; [reflexivity|].
  cbn [length seq combine filter fst].
  destruct (Nat.eqb_spec k index); [lia|]. cbn [negb map snd].
  f_equal. apply IH. lia.
Qed.

Lemma filter_index_cut (k index : nat) (l : list X) :
  map snd
    (filter (fun entry => negb (Nat.eqb (fst entry) (k + index)))
       (combine (seq k (length l)) l))
  = firstn index l ++ skipn (S index) l.
Proof.
  revert k index. induction l as [|x l IH]; intros k index.
  - now destruct index.
  - cbn [length seq combine filter fst].
    destruct index as [|index].
    + rewrite Nat.add_0_r, Nat.eqb_refl. cbn [negb firstn skipn app].
      apply filter_index_all. lia.
    + destruct (Nat.eqb_spec k (k + S index)); [lia|]. cbn [negb map snd firstn skipn app].
      f_equal. replace (k + S index) with (S k + index) by lia. apply IH.
Qed.

Lemma handleRemoveOcr_cut (index : nat) (prev : list X) :
  handleRemoveOcr index prev = firstn index prev ++ skipn (S index) prev.
Proof. apply (filter_index_cut 0 index prev). Qed.

(** X12.  [handleRemoveOcr] takes out the file at the index and no other: the files
    before it and the files behind it stay, in their order; an index at or
    beyond the end of the list removes nothing. *)
Theorem handleRemoveOcr_cuts_one (index : nat) (prev : list X) :
  handleRemoveOcr index prev = firstn index prev ++ skipn (S index) prev /\
  (index < length prev -> S (length (handleRemoveOcr index prev)) = length prev) /\
  (length prev <= index -> handleRemoveOcr index prev = prev).
Proof.
  pose proof (handleRemoveOcr_cut index prev) as Cut.
  split; [exact Cut|]. rewrite Cut. split; intros H.
  - rewrite length_app, length_firstn, length_skipn. lia.
  - rewrite firstn_all2, skipn_all2, app_nil_r by lia. reflexivity.
Qed.

(** Taking out what was put in gives the list back. *)
Lemma cut_insert (index : nat) (x : X) (l : list X) :
  index <= length l ->
  firstn index (firstn index l ++ x :: skipn index l)
    ++ skipn (S index) (firstn index l ++ x :: skipn index l) = l.
Proof.
  revert index. induction l as [|y l IH]; intros [|index] H; cbn in H |- *;
    try reflexivity; try lia.
  f_equal. apply IH. lia.
Qed.

(** Putting back what was taken out gives the list back. *)
Lemma insert_cut (index : nat) (x : X) (l : list X) :
  nth_error l index = Some x ->
  firstn index (firstn index l ++ skipn (S index) l)
    ++ x :: skipn index (firstn index l ++ skipn (S index) l) = l.
Proof.
  revert index. induction l as [|y l IH]; intros [|index] H; try discriminate.
  - cbn in H |- *. congruence.
  - cbn [nth_error] in H. cbn [firstn skipn app]. f_equal. now apply IH.
Qed.

Lemma nth_insert (index : nat) (x : X) (l : list X) :
  index <= length l ->
  nth_error (firstn index l ++ x :: skipn index l) index = Some x.
Proof.
  intros H. rewrite nth_error_app2 by (rewrite length_firstn; lia).
  rewrite length_firstn, Nat.min_l, Nat.sub_diag by lia. reflexivity.
Qed.

Lemma length_cut (index : nat) (l : list X) :
  index < length l -> length (firstn index l ++ skipn (S index) l) = length l - 1.
Proof. intros H. rewrite length_app, length_firstn, length_skipn. lia. Qed.

End FileList.

Section Dragging.

Import Files.

Context {A : Type}.

(** Within the list, [onDrop] takes the file out at [from] and puts it in at
    [index]. *)
Lemma onDrop_within (from index : nat) (prev : list (option A)) (x : option A) :
  nth_error prev from = Some x -> index < length prev ->
  onDrop (Some (Z.of_nat from)) index prev =
  firstn index (firstn from prev ++ skipn (S from) prev)
    ++ x :: skipn index (firstn from prev ++ skipn (S from) prev).
Proof.
  intros Hx Hindex.
  assert (Hfrom : from < length prev) by (apply nth_error_Some; congruence).
  unfold onDrop, splice, splice_start.
  destruct (Z.ltb_spec (Z.of_nat from) 0); [lia|].
  rewrite Nat2Z.id, (Nat.min_l from) by lia.
  replace (Nat.min 1 (length prev - from)) with 1 by lia.
  cbn [app].
  assert (Hsplit : skipn from prev = x :: skipn (S from) prev).
  { clear - Hx. revert from Hx.
    induction prev as [|y l IH]; intros [|from] Hx; try discriminate.
    - now injection Hx as ->.
    - cbn [nth_error] in Hx. cbn [skipn]. now apply IH. }
  rewrite Hsplit. cbn [firstn snd].
  destruct (Z.ltb_spec (Z.of_nat index) 0); [lia|].
  rewrite Nat2Z.id. replace (from + 1) with (S from) by lia.
  assert (Hlen : length (firstn from prev ++ skipn (S from) prev) = length prev - 1).
  { rewrite length_app, length_firstn, length_skipn. lia. }
  rewrite Hlen, (Nat.min_l index) by lia.
  replace (Nat.min 0 (length prev - 1 - index)) with 0 by lia.
  now rewrite Nat.add_0_r.
Qed.

(** X13.  Dropping a file of the list on a file of the list moves it and nothing
    else: the list keeps its length and its files, the file dragged stands
    where it was dropped, and the other files keep their order. *)
Theorem onDrop_moves_one (from index : nat) (prev : list (option A)) (x : option A) :
  nth_error prev from = Some x -> index < length prev ->
  nth_error (onDrop (Some (Z.of_nat from)) index prev) index = Some x /\
  handleRemoveOcr index (onDrop (Some (Z.of_nat from)) index prev)
    = handleRemoveOcr from prev /\
  length (onDrop (Some (Z.of_nat from)) index prev) = length prev /\
  Permutation.Permutation (onDrop (Some (Z.of_nat from)) index prev) prev.
Proof.
  intros Hx Hindex.
  assert (Hfrom : from < length prev) by (apply nth_error_Some; congruence).
  rewrite (onDrop_within from index prev x Hx Hindex).
  set (next := firstn from prev ++ skipn (S from) prev).
  assert (Hlen : length next = length prev - 1).
  { unfold next. rewrite length_app, length_firstn, length_skipn. lia. }
  assert (Hfirst : length (firstn index next) = index)
    by (rewrite length_firstn; lia).
  assert (Hprev : prev = firstn from prev ++ x :: skipn (S from) prev).
  { clear - Hx. revert from Hx.
    induction prev as [|y l IH]; intros [|from] Hx; try discriminate.
    - now injection Hx as ->.
    - cbn [nth_error] in Hx. cbn [firstn skipn app]. f_equal. now apply IH. }
  split; [|split; [|split]].
  - rewrite nth_error_app2 by lia. now rewrite Hfirst, Nat.sub_diag.
  - rewrite !handleRemoveOcr_cut. fold next.
    apply cut_insert. lia.
  - rewrite length_app. cbn [length]. rewrite Hfirst, length_skipn. lia.
  - apply Permutation.Permutation_trans with (x :: next).
    + apply Permutation.Permutation_sym.
      rewrite <- (firstn_skipn index next) at 1.
      apply Permutation.Permutation_middle.
    + unfold next. rewrite Hprev at 3. apply Permutation.Permutation_middle.
Qed.

(** X14.  Dropping the file back where it came from restores the list. *)
Theorem onDrop_back_restores (from index : nat) (prev : list (option A)) :
  from < length prev -> index < length prev ->
  onDrop (Some (Z.of_nat index)) from (onDrop (Some (Z.of_nat from)) index prev) = prev.
Proof.
  intros Hfrom Hindex.
  destruct (nth_error prev from) as [x|] eqn:Hx;
    [|apply nth_error_None in Hx; lia].
  rewrite (onDrop_within from index prev x Hx Hindex).
  pose proof (length_cut from prev Hfrom) as Hlen.
  rewrite (onDrop_within index from _ x).
  - rewrite cut_insert by lia. now apply insert_cut.
  - apply nth_insert. lia.
  - rewrite length_app. cbn [length]. rewrite length_firstn, length_skipn. lia.
Qed.

(** X15.  Drag data that reads as a number at or beyond the length of the list
    moves no file: [onDrop] puts an [undefined] entry where the drop was, and
    the list grows by one. *)
Theorem onDrop_foreign_number (from : Z) (index : nat) (prev : list (option A)) :
  (Z.of_nat (length prev) <= from)%Z -> index <= length prev ->
  onDrop (Some from) index prev = firstn index prev ++ None :: skipn index prev.
Proof.
  intros Hfrom Hindex. unfold onDrop, splice, splice_start.
  destruct (Z.ltb_spec from 0); [lia|].
  rewrite (Nat.min_r (Z.to_nat from)) by lia.
  rewrite Nat.sub_diag, Nat.min_0_r, Nat.add_0_r.
  rewrite firstn_all, skipn_all, app_nil_r. cbn [firstn app snd].
  destruct (Z.ltb_spec (Z.of_nat index) 0); [lia|].
  rewrite Nat2Z.id, (Nat.min_l index) by lia.
  now rewrite Nat.min_0_l, Nat.add_0_r.
Qed.

End Dragging.

(** ** The table of results *)

Section ResultTable.

Import Table.

Lemma map_get_set {V : Type} (k k' : string) (v : V) (m : list (string * V)) :
  map_get k (map_set k' v m) = if String.eqb k' k then Some v else map_get k m.
Proof.
  induction m as [|[k0 v0] rest IH]; cbn [map_set map_get]; [reflexivity|].
  destruct (String.eqb_spec k0 k') as [->|Hne]; cbn [map_get].
  - now destruct (String.eqb k' k).
  - rewrite IH. destruct (String.eqb_spec k0 k) as [->|]; [|reflexivity].
    destruct (String.eqb_spec k' k); [congruence | reflexivity].
Qed.

Lemma find_app_last {E : Type} (p : E -> bool) (l : list E) (e : E) :
  find p (l ++ [e]) =
  match find p l with
  | Some x => Some x
  | None => if p e then Some e else None
  end.
Proof.
  induction l as [|x l IH]; cbn [app find]; [reflexivity|].
  now destruct (p x).
Qed.

(** Filling a map entry by entry, the last entry with a key is the one found
    under it. *)
Lemma fold_set_last {E V : Type} (key : E -> string) (val : E -> V) (k : string)
  (entries : list E) (init : list (string * V)) :
  map_get k (fold_left (fun m entry => map_set (key entry) (val entry) m) entries init) =
  match find (fun entry => String.eqb (key entry) k) (List.rev entries) with
  | Some entry => Some (val entry)
  | None => map_get k init
  end.
Proof.
  revert init. induction entries as [|e es IH]; intros init; [reflexivity|].
  cbn [fold_left List.rev]. rewrite IH, find_app_last, map_get_set.
  destruct (find _ (List.rev es)); [reflexivity|].
  now destruct (String.eqb (key e) k).
Qed.

(** X16.  The flags a row of the table shows are those of the last entry under
    the key of its maker and code: its first, fourth, eighth and ninth cells
    are the destination, the number and the two marks of the last entry of
    [flags_with_number] for that maker and code when that array has an entry,
    in which case [flags] is not looked at, and of the last entry of [flags]
    otherwise, with an empty number; all four are empty when there is no such
    entry. *)
Theorem flags_of_last_entry (response : OrderResponse) :
  (forall maker code,
      map_get (flag_key maker code) (flagsMap response) =
      match flags_with_number response with
      | Some (e :: es) =>
          option_map shown6
            (find (fun entry => String.eqb (key6 entry) (flag_key maker code))
               (List.rev (e :: es)))
      | _ =>
          option_map shown5
            (find (fun entry => String.eqb (key5 entry) (flag_key maker code))
               (List.rev (flags response)))
      end) /\
  Forall
    (fun row =>
       [nth 0 row ""; nth 3 row ""; nth 7 row ""; nth 8 row ""] =
       match flags_with_number response with
       | Some (e :: es) =>
           match find (fun entry =>
                         String.eqb (key6 entry) (flag_key (nth 1 row "") (nth 2 row "")))
                   (List.rev (e :: es)) with
           | Some entry => [n_dest entry; n_num entry; n_seibun entry; n_mihon entry]
           | None => [""; ""; ""; ""]
           end
       | _ =>
           match find (fun entry =>
                         String.eqb (key5 entry) (flag_key (nth 1 row "") (nth 2 row "")))
                   (List.rev (flags response)) with
           | Some entry => [f_dest entry; ""; f_seibun entry; f_mihon entry]
           | None => [""; ""; ""; ""]
           end
       end)
    (tl (table_rows response)).
Proof.
  assert (Map : forall maker code,
             map_get (flag_key maker code) (flagsMap response) =
             match flags_with_number response with
             | Some (e :: es) =>
                 option_map shown6
                   (find (fun entry => String.eqb (key6 entry) (flag_key maker code))
                      (List.rev (e :: es)))
             | _ =>
                 option_map shown5
                   (find (fun entry => String.eqb (key5 entry) (flag_key maker code))
                      (List.rev (flags response)))
             end).
  { intros maker code. unfold flagsMap.
    destruct (flags_with_number response) as [[|e es]|];
      rewrite fold_set_last;
      match goal with |- context [find ?p ?l] => destruct (find p l) end; reflexivity. }
  split; [exact Map|].
  unfold table_rows. cbn [tl].
  apply Forall_flat_map, Forall_forall. intros [maker codes] _.
  unfold rows_of_maker. apply Forall_map, Forall_forall. intros [index code] _.
  cbn [fst snd]. unfold row_of. cbn [nth]. rewrite Map.
  destruct (flags_with_number response) as [[|e es]|];
    match goal with |- context [find ?p ?l] => destruct (find p l) end; reflexivity.
Qed.

Lemma rows_of_maker_shape (response : OrderResponse) (entry : string * list string) :
  length (rows_of_maker response entry) = length (snd entry) /\
  Forall (fun row => length row = 10) (rows_of_maker response entry) /\
  map (fun row => (nth 1 row "", nth 2 row "")) (rows_of_maker response entry)
    = map (pair (fst entry)) (snd entry).
Proof.
  destruct entry as [maker codes]. unfold rows_of_maker. cbn [fst snd].
  generalize (match map_get maker (maker_data response) with
              | Some rows => rows
              | None => []
              end) as dataRows.
  intros dataRows.
  enough (H : forall start,
             let rows := map (fun numbered =>
                                row_of (flagsMap response) maker dataRows
                                  (fst numbered) (snd numbered))
                           (combine (seq start (length codes)) codes) in
             length rows = length codes /\
             Forall (fun row => length row = 10) rows /\
             map (fun row => (nth 1 row "", nth 2 row "")) rows = map (pair maker) codes)
    by apply (H 0).
  cbv zeta.
  induction codes as [|code codes IH]; intros start; [now repeat split|].
  cbn [length seq combine map].
  destruct (IH (S start)) as (Hlen & Hwide & Hpairs).
  split; [now rewrite Hlen|]. split; [constructor; [reflexivity | exact Hwide]|].
  cbn [fst snd]. now rewrite Hpairs.
Qed.

(** X17.  The table has the header and then one row for each code of each maker,
    in the order of [maker_cds]: every row has ten cells, and the second and
    third cells of the rows are the makers and their codes.  Without a result
    there is no table. *)
Theorem table_lists_every_code (response : OrderResponse) :
  hd_error (table_rows response) = Some header /\
  length (table_rows response) = S (length (pairs response)) /\
  Forall (fun row => length row = 10) (table_rows response) /\
  map (fun row => (nth 1 row "", nth 2 row "")) (tl (table_rows response))
    = pairs response /\
  CalcResultTable None = None.
Proof.
  unfold table_rows, pairs. cbn [hd_error tl length].
  split; [reflexivity|].
  induction (maker_cds response) as [|entry rest IH].
  - repeat split. now repeat constructor.
  - destruct IH as (Hlen & Hwide & Hpairs & _).
    destruct (rows_of_maker_shape response entry) as (Elen & Ewide & Epairs).
    cbn [flat_map]. injection Hlen as Hlen.
    apply Forall_cons_iff in Hwide as [Hhead Hwide].
    split; [|split; [|split; [|reflexivity]]].
    + rewrite !length_app, length_map, Elen, Hlen. reflexivity.
    + constructor; [exact Hhead|]. apply Forall_app. now split.
    + now rewrite map_app, Epairs, Hpairs.
Qed.

End ResultTable.

(** ** The tree of a configuration *)

Section ConfigTree.

Import JsonTree.

(** The class of [escapeRegExp] holds the syntax characters of a pattern, all
    of them and nothing else. *)
Lemma is_syntax_SyntaxCharacter (c : ascii) : is_syntax c = is_SyntaxCharacter c.
Proof. destruct c as [[] [] [] [] [] [] [] []]; reflexivity. Qed.

Lemma backslash_code (c : ascii) :
  Nat.eqb (nat_of_ascii c) 92 = true -> is_SyntaxCharacter c = true.
Proof. destruct c as [[] [] [] [] [] [] [] []]; vm_compute; congruence. Qed.

(** X18.  Read as a pattern of the language, what [escapeRegExp] returns is
    made of pattern characters and of syntax characters behind a backslash
    only, and the text it matches is the text [escapeRegExp] was given: the
    class of the function is the set of syntax characters, so each of them
    stands behind a backslash, and every other character stands for itself. *)
Theorem escapeRegExp_is_literal (value : string) :
  literal_of (escapeRegExp value) = Some value /\
  (forall c, is_syntax c = true <-> In (nat_of_ascii c) SyntaxCharacter).
Proof.
  split.
  - induction value as [|c rest IH]; [reflexivity|].
    cbn [escapeRegExp]. destruct (is_syntax c) eqn:Hc.
    + rewrite is_syntax_SyntaxCharacter in Hc.
      cbn [literal_of]. change (Nat.eqb (nat_of_ascii backslash) 92) with true.
      cbv iota. rewrite Hc, IH. reflexivity.
    + rewrite is_syntax_SyntaxCharacter in Hc.
      cbn [literal_of]. rewrite Hc, IH.
      destruct (Nat.eqb (nat_of_ascii c) 92) eqn:Hb; [|reflexivity].
      apply backslash_code in Hb. congruence.
  - intros c. rewrite is_syntax_SyntaxCharacter. unfold is_SyntaxCharacter.
    rewrite existsb_exists. split.
    + intros [n [Hin Hn]]. apply Nat.eqb_eq in Hn. now subst n.
    + intros Hin. exists (nat_of_ascii c). split; [exact Hin | apply Nat.eqb_refl].
Qed.

(** [escapeRegExp] works character by character: the escape of two texts put
    together is their escapes put together, and a text without syntax
    characters is its own escape. *)
Lemma escapeRegExp_app (a b : string) :
  escapeRegExp (a ++ b) = (escapeRegExp a ++ escapeRegExp b)%string.
Proof.
  induction a as [|c a IH]; [reflexivity|].
  cbn [String.append escapeRegExp]. destruct (is_syntax c); cbn; now rewrite IH.
Qed.

Variable String_ : Value -> string.

(** Induction on a value with the values it holds. *)
Lemma JValue_nested_ind (P : JValue -> Prop) :
  P JNull -> (forall b, P (JBool b)) -> (forall q, P (JNumber q)) ->
  (forall s, P (JString s)) ->
  (forall items, Forall P items -> P (JArray items)) ->
  (forall fields, Forall (fun entry => P (snd entry)) fields -> P (JObject fields)) ->
  forall value, P value.
Proof.
  intros Hnull Hbool Hnumber Hstring Harray Hobject.
  fix IH 1. intros [| b | q | s | items | fields].
  - exact Hnull.
  - apply Hbool.
  - apply Hnumber.
  - apply Hstring.
  - apply Harray. induction items as [|item items IHitems]; constructor;
      [apply IH | exact IHitems].
  - apply Hobject. induction fields as [|[k v] fields IHfields]; constructor;
      [apply IH | exact IHfields].
Qed.

(** X19.  The tree draws one line for each value that is not a container, no more
    and no fewer, whatever the query. *)
Theorem tree_draws_every_value (data : JValue) (query : string) :
  leaves (JsonTree String_ data query) = primitives data.
Proof.
  unfold JsonTree. generalize (Some "root") as label, 0 as depth. revert data.
  induction data as [| b | q | s | items IH | fields IH] using JValue_nested_ind;
    intros label depth; try reflexivity.
  - cbn [JsonNode leaves primitives]. f_equal. generalize 0 as index.
    induction IH as [|item items Hitem _ IHitems]; intros index; [reflexivity|].
    cbn [map]. now rewrite Hitem, IHitems.
  - cbn [JsonNode leaves primitives]. f_equal.
    induction IH as [|[k v] fields Hfield _ IHfields]; [reflexivity|].
    cbn [map fst snd] in *. now rewrite Hfield, IHfields.
Qed.

(** X20.  With a query typed in, every level of the tree is open; with none, the
    root and the level below it are open and every deeper level is closed. *)
Theorem tree_opens_by_query_or_depth (data : JValue) (query : string) :
  (query <> "" -> all_open (JsonTree String_ data query) = true) /\
  open_to_second 0 (JsonTree String_ data "") = true.
Proof.
  unfold JsonTree. split.
  - intros Hquery.
    assert (Hopen : forall depth, defaultOpen query depth = true).
    { intros depth. unfold defaultOpen. destruct query; [congruence|].
      cbn. now rewrite orb_true_r. }
    generalize (Some "root") as label, 0 as depth. revert data.
    induction data as [| b | q | s | items IH | fields IH] using JValue_nested_ind;
      intros label depth; try reflexivity.
    + cbn [JsonNode all_open]. rewrite Hopen. cbn [andb]. generalize 0 as index.
      induction IH as [|item items Hitem _ IHitems]; intros index; [reflexivity|].
      cbn [forallb]. now rewrite Hitem, IHitems.
    + cbn [JsonNode all_open]. rewrite Hopen. cbn [andb].
      induction IH as [|[k v] fields Hfield _ IHfields]; [reflexivity|].
      cbn [map forallb fst snd] in *. now rewrite Hfield, IHfields.
  - generalize (Some "root") as label, 0 as depth. revert data.
    induction data as [| b | q | s | items IH | fields IH] using JValue_nested_ind;
      intros label depth; try reflexivity.
    + cbn [JsonNode open_to_second]. unfold defaultOpen. cbn [String.length Nat.eqb negb].
      rewrite orb_false_r, eqb_reflx. cbn [andb]. generalize 0 as index.
      induction IH as [|item items Hitem _ IHitems]; intros index; [reflexivity|].
      cbn [forallb]. now rewrite Hitem, IHitems.
    + cbn [JsonNode open_to_second]. unfold defaultOpen. cbn [String.length Nat.eqb negb].
      rewrite orb_false_r, eqb_reflx. cbn [andb].
      induction IH as [|[k v] fields Hfield _ IHfields]; [reflexivity|].
      cbn [map forallb fst snd] in *. now rewrite Hfield, IHfields.
Qed.

End ConfigTree.

(** ** The route of a center *)

Section CenterRoute.

Import Route.

Local Ltac each_byte c := destruct c as [[] [] [] [] [] [] [] []].

Lemma unreserved_plain (c : ascii) :
  unreserved c = true -> Ascii.eqb c percent = false /\ Ascii.eqb c slash = false.
Proof. each_byte c; cbv; intros H; try discriminate H; now split. Qed.

Lemma high_not_unreserved (c : ascii) :
  Nat.ltb (byte c) 128 = false -> unreserved c = false.
Proof. each_byte c; cbv; intros H; try discriminate H; reflexivity. Qed.

Lemma tokens_escape (c : ascii) (rest : string) :
  tokens (escape c ++ rest) = option_map (cons (Escaped c)) (tokens rest).
Proof. each_byte c; reflexivity. Qed.

Lemma segment_escape (c : ascii) (rest : string) :
  segment (escape c ++ rest) = (escape c ++ segment rest)%string.
Proof. each_byte c; reflexivity. Qed.

Lemma tail_high (c : ascii) : tail c = true -> Nat.ltb (byte c) 128 = false.
Proof.
  unfold tail, between. intros H. apply andb_true_iff in H as [H _].
  apply Nat.leb_le in H. apply Nat.ltb_ge. exact H.
Qed.

Lemma between_high (low high n : nat) :
  128 <= low -> between low high n = true -> Nat.ltb n 128 = false.
Proof.
  unfold between. intros Hlow H. apply andb_true_iff in H as [H _].
  apply Nat.leb_le in H. apply Nat.ltb_ge. lia.
Qed.

Lemma two_high (b1 b2 : ascii) :
  two b1 b2 = true -> Nat.ltb (byte b2) 128 = false.
Proof. unfold two. intros H. apply andb_true_iff in H as [_ H]. now apply tail_high. Qed.

Lemma three_high (b1 b2 b3 : ascii) :
  three b1 b2 b3 = true ->
  Nat.ltb (byte b2) 128 = false /\ Nat.ltb (byte b3) 128 = false.
Proof.
  unfold three. intros H. apply andb_true_iff in H as [H H3].
  apply andb_true_iff in H as [_ H2]. split; [|now apply tail_high].
  destruct (Nat.eqb (byte b1) 224); [apply (between_high 160 191); [lia | assumption]|].
  destruct (Nat.eqb (byte b1) 237); [apply (between_high 128 159); [lia | assumption]|].
  now apply tail_high.
Qed.

Lemma four_high (b1 b2 b3 b4 : ascii) :
  four b1 b2 b3 b4 = true ->
  Nat.ltb (byte b2) 128 = false /\ Nat.ltb (byte b3) 128 = false /\
  Nat.ltb (byte b4) 128 = false.
Proof.
  unfold four. intros H. apply andb_true_iff in H as [H H4].
  apply andb_true_iff in H as [H H3]. apply andb_true_iff in H as [_ H2].
  split; [|split; now apply tail_high].
  destruct (Nat.eqb (byte b1) 240); [apply (between_high 144 191); [lia | assumption]|].
  destruct (Nat.eqb (byte b1) 244); [apply (between_high 128 143); [lia | assumption]|].
  now apply tail_high.
Qed.

(** What [encodeURIComponent] writes reads back, token by token, as the
    tokens of the text. *)
Lemma tokens_encode (value : string) :
  tokens (encodeURIComponent value) = Some (written value).
Proof.
  induction value as [|c rest IH]; [reflexivity|].
  cbn [encodeURIComponent written]. destruct (unreserved c) eqn:Hc.
  - cbn [tokens]. rewrite (proj1 (unreserved_plain c Hc)), IH. reflexivity.
  - rewrite tokens_escape, IH. reflexivity.
Qed.

(** No slash is written. *)
Lemma segment_encode (value : string) :
  segment (encodeURIComponent value) = encodeURIComponent value.
Proof.
  induction value as [|c rest IH]; [reflexivity|].
  cbn [encodeURIComponent]. destruct (unreserved c) eqn:Hc.
  - cbn [segment]. rewrite (proj2 (unreserved_plain c Hc)), IH. reflexivity.
  - rewrite segment_escape, IH. reflexivity.
Qed.

Lemma written_high (c : ascii) (rest : string) :
  Nat.ltb (byte c) 128 = false -> written (String c rest) = Escaped c :: written rest.
Proof. intros H. cbn [written]. now rewrite (high_not_unreserved c H). Qed.

Lemma decode_written_upto (n : nat) (value : string) :
  String.length value <= n -> valid_utf8 value = true ->
  decode (written value) = Some value.
Proof.
  revert value. induction n as [|n IH]; intros value Hlen Hvalid.
  - destruct value; [reflexivity | cbn in Hlen; lia].
  - destruct value as [|b1 r1]; [reflexivity|].
    cbn [String.length] in Hlen. cbn [valid_utf8] in Hvalid.
    destruct (Nat.ltb (byte b1) 128) eqn:H1.
    + cbn [written].
      destruct (unreserved b1); cbn [decode]; rewrite ?H1, (IH r1) by (assumption || lia);
        reflexivity.
    + rewrite (written_high b1 r1 H1).
      destruct r1 as [|b2 r2]; [discriminate|]. cbn [String.length] in Hlen.
      destruct (two b1 b2) eqn:H2.
      { rewrite (written_high b2 r2 (two_high _ _ H2)). cbn [decode].
        rewrite H1, H2, IH by (assumption || lia). reflexivity. }
      destruct r2 as [|b3 r3]; [discriminate|]. cbn [String.length] in Hlen.
      destruct (three b1 b2 b3) eqn:H3.
      { destruct (three_high _ _ _ H3) as [Hb2 Hb3].
        rewrite (written_high b2 _ Hb2), (written_high b3 _ Hb3). cbn [decode].
        rewrite H1, H2, H3, IH by (assumption || lia). reflexivity. }
      destruct r3 as [|b4 r4]; [discriminate|]. cbn [String.length] in Hlen.
      apply andb_true_iff in Hvalid as [H4 Hvalid].
      destruct (four_high _ _ _ _ H4) as (Hb2 & Hb3 & Hb4).
      rewrite (written_high b2 _ Hb2), (written_high b3 _ Hb3), (written_high b4 _ Hb4).
      cbn [decode]. rewrite H1, H2, H3, H4, IH by (assumption || lia). reflexivity.
Qed.

(** X21.  The route [Header] pushes for a center reads back as that center: for
    every center id without a lone surrogate, whatever it holds (slashes,
    percent signs, spaces, text beyond ASCII), the path written by
    [handleChange] gives the id again in [currentCenterFromPath], and the
    empty choice gives the empty id; so does [decodeURIComponent], as
    the center page applies it, of what [encodeURIComponent] wrote. *)
Theorem route_round_trip (value : string) :
  valid_utf8 value = true ->
  currentCenterFromPath (Some (handleChange value)) = Some value /\
  decodeURIComponent (encodeURIComponent value) = Some value.
Proof.
  intros Hvalid.
  assert (Back : decodeURIComponent (encodeURIComponent value) = Some value).
  { unfold decodeURIComponent. rewrite tokens_encode.
    now apply (decode_written_upto (String.length value)). }
  split; [|exact Back].
  unfold handleChange. destruct value as [|c rest]; [reflexivity|].
  cbn [String.eqb]. unfold currentCenterFromPath.
  change (slice 8 ("/center/" ++ encodeURIComponent (String c rest)))
    with (encodeURIComponent (String c rest)).
  change (startsWith "/center/" ("/center/" ++ encodeURIComponent (String c rest)))
    with true.
  cbn [String.append String.eqb Ascii.eqb Bool.eqb].
  rewrite segment_encode.
  destruct (encodeURIComponent (String c rest)) eqn:E; [|exact Back].
  cbn [encodeURIComponent] in E. destruct (unreserved c); discriminate E.
Qed.

End CenterRoute.

(** ** The ref over the lifetime of the component *)

Section Ref.

Variable JSON_parse : string -> option JValue.
Variable String_ : Value -> string.
Variable JSON_stringify : Value -> string.
Variable toLocaleTimeString : nat -> string.

#[local] Abbreviation on_payload :=
  (on_payload JSON_parse String_ JSON_stringify toLocaleTimeString).
#[local] Abbreviation consume :=
  (consume JSON_parse String_ JSON_stringify toLocaleTimeString).
#[local] Abbreviation runAnalyze :=
  (runAnalyze JSON_parse String_ JSON_stringify toLocaleTimeString).
#[local] Abbreviation runExport :=
  (runExport JSON_parse String_ JSON_stringify toLocaleTimeString).

Lemma on_payload_keeps_ref (ph : Phase) (payloadRaw : string) (st : State) :
  streamingReceived st = true ->
  streamingReceived (fst (on_payload ph payloadRaw st)) = true.
Proof.
  intros Hset.
  destruct (on_payload_shape JSON_parse String_ JSON_stringify toLocaleTimeString
              ph payloadRaw st) as [[m ->]|[[m ->]|[data ->]]];
    [exact Hset | reflexivity |].
  now rewrite on_result_streamingReceived.
Qed.

Lemma consume_keeps_ref (ph : Phase) (res : Fetched) (st : State) :
  streamingReceived st = true -> streamingReceived (fst (consume ph res st)) = true.
Proof.
  apply (consume_preserves JSON_parse String_ JSON_stringify toLocaleTimeString
           (fun s => streamingReceived s = true) ph).
  intros payloadRaw s. apply on_payload_keeps_ref.
Qed.

(** X11.  No handler clears the ref [streamingReceivedRef]: once a [dbg] event has
    set it, it is set after every later run of [runAnalyze] and [runExport],
    and from then on a [result] event adds nothing to the log, whatever
    [debug_logs] it carries. *)
Theorem ref_stays_set (st : State) :
  streamingReceived st = true ->
  (forall id ref files res, streamingReceived (runAnalyze id ref files res st) = true) /\
  (forall memo res, streamingReceived (runExport memo res st) = true) /\
  (forall ph data, logs (on_result ph data st) = logs st).
Proof.
  intros Hset. split; [|split].
  - intros id ref files res. unfold Console.runAnalyze.
    destruct (String.eqb id ""); [exact Hset|].
    destruct (Nat.eqb (length files) 0); [exact Hset|].
    match goal with |- context [consume ?ph ?r ?s] =>
      pose proof (consume_keeps_ref ph r s Hset) as Keep;
      destruct (consume ph r s) as [st' thrown]
    end.
    cbn [fst] in Keep. now destruct thrown.
  - intros memo res. unfold Console.runExport.
    destruct (negb (truthy (response st)) || negb memo); [exact Hset|].
    match goal with |- context [consume ?ph ?r ?s] =>
      pose proof (consume_keeps_ref ph r s Hset) as Keep;
      destruct (consume ph r s) as [st' thrown]
    end.
    cbn [fst] in Keep. now destruct thrown.
  - intros ph data. rewrite on_result_logs, Hset. cbn [negb].
    now rewrite andb_false_r, app_nil_r.
Qed.

End Ref.

(** ** The cases, run *)

Import Cases.

(** X1, witness: a comment, an empty frame and a frame with another field. *)
Lemma frames_without_data_change_nothing_witness :
  Forall (fun part => data_payloads (lines_of part) = []) quiet_frames /\
  Console.for_parts Sample.JSON_parse Sample.String_ Sample.JSON_stringify
    Sample.toLocaleTimeString Analyzing quiet_frames mount false = (mount, false).
Proof.
  assert (Quiet : Forall (fun part => data_payloads (lines_of part) = []) quiet_frames)
    by (repeat constructor).
  split; [exact Quiet|].
  exact (frames_without_data_change_nothing
           Sample.JSON_parse Sample.String_ Sample.JSON_stringify Sample.toLocaleTimeString
           Analyzing quiet_frames mount false Quiet).
Defined.

(** X2, witness: two chunks and no blank line. *)
Lemma unterminated_text_is_dropped_witness :
  split (LF ++ LF) (join cut_short) = [join cut_short] /\
  Console.read_loop Sample.JSON_parse Sample.String_ Sample.JSON_stringify
    Sample.toLocaleTimeString Exporting (map Chunk cut_short) "" after_analyze
  = (after_analyze, None).
Proof.
  split; [reflexivity|].
  exact (unterminated_text_is_dropped
           Sample.JSON_parse Sample.String_ Sample.JSON_stringify Sample.toLocaleTimeString
           Exporting cut_short after_analyze eq_refl).
Defined.

(** X3, witness: an event of the kind [progress]. *)
Lemma other_payloads_log_one_line_witness :
  (forall payload, Sample.JSON_parse progress_payload = Some payload ->
                   is_string "result" (get payload "event") = false) /\
  (exists line,
      logs (fst (Sample.on_payload Analyzing progress_payload mount)) = logs mount ++ [line]) /\
  response (fst (Sample.on_payload Analyzing progress_payload mount)) = response mount /\
  finalLinks (fst (Sample.on_payload Analyzing progress_payload mount)) = finalLinks mount /\
  error (fst (Sample.on_payload Analyzing progress_payload mount)) = error mount.
Proof.
  assert (Kind : forall payload, Sample.JSON_parse progress_payload = Some payload ->
                                 is_string "result" (get payload "event") = false).
  { intros payload Hparse. vm_compute in Hparse. injection Hparse as <-. reflexivity. }
  split; [exact Kind|].
  exact (other_payloads_log_one_line
           Sample.JSON_parse Sample.String_ Sample.JSON_stringify Sample.toLocaleTimeString
           Analyzing progress_payload mount Kind).
Defined.

(** X4, witness: a [result] event that carries a string. *)
Lemma result_without_object_is_dropped_witness :
  Sample.JSON_parse bad_result_payload = Some bad_result /\
  is_string "result" (get bad_result "event") = true /\
  is_object (get bad_result "data") = false /\
  Sample.on_payload Exporting bad_result_payload after_analyze = (after_analyze, false).
Proof.
  split; [reflexivity|]. split; [reflexivity|]. split; [reflexivity|].
  exact (result_without_object_is_dropped
           Sample.JSON_parse Sample.String_ Sample.JSON_stringify Sample.toLocaleTimeString
           Exporting bad_result_payload bad_result after_analyze eq_refl eq_refl eq_refl).
Defined.


(** X8, witness: codes for the maker [m], none for the maker [n]. *)
Lemma canExport_of_groups_witness :
  truthy (Some grouped) = true /\
  get grouped "maker_cds" = Some (JObject groups) /\
  forallb is_array (map snd groups) = true /\
  canExport (Some grouped) = Some (existsb is_codes (map snd groups)).
Proof.
  split; [reflexivity|]. split; [reflexivity|]. split; [reflexivity|].
  exact (proj1 (canExport_of_groups grouped groups eq_refl eq_refl eq_refl)).
Defined.

(** X9, witness: the export button after the analysis of [analyze_with_dbg]. *)
Lemma export_gate_witness :
  canExport (response after_analyze) = Some true /\
  fetched (Sample.runExport true (Body []) after_analyze)
    = fetched after_analyze ++ [export_endpoint].
Proof.
  split; [reflexivity|].
  exact (proj1 (proj2 (export_gate
                         Sample.JSON_parse Sample.String_ Sample.JSON_stringify
                         Sample.toLocaleTimeString true (Body []) after_analyze eq_refl)
                 eq_refl)).
Defined.

(** With two sessions open at once there can be a link and no result: an
    analysis leaves a result, an export is started, the analysis is started
    again, which clears the result and the links, and then the export session
    gets its result. *)
Example link_without_result :
  response (Cases.run late_export mount) = None /\
  map name (finalLinks (Cases.run late_export mount)) = [name_output_link] /\
  analyzing (Cases.run late_export mount) = true /\
  exporting (Cases.run late_export mount) = true.
Proof. repeat split; vm_compute; reflexivity. Qed.

(** X10, witness: the state of that example. *)
Lemma reachable_state_is_well_formed_witness :
  reachable Sample.JSON_parse Sample.String_ Sample.JSON_stringify
    Sample.toLocaleTimeString (Cases.run late_export mount) /\
  (response (Cases.run late_export mount) = None \/
   is_object (response (Cases.run late_export mount)) = true) /\
  Forall link_ok (finalLinks (Cases.run late_export mount)) /\
  (forall id ref files res,
      reachable Sample.JSON_parse Sample.String_ Sample.JSON_stringify
        Sample.toLocaleTimeString
        (Sample.runAnalyze id ref files res (Cases.run late_export mount))) /\
  (forall memo res,
      reachable Sample.JSON_parse Sample.String_ Sample.JSON_stringify
        Sample.toLocaleTimeString
        (Sample.runExport memo res (Cases.run late_export mount))).
Proof.
  assert (Reach : reachable Sample.JSON_parse Sample.String_ Sample.JSON_stringify
                    Sample.toLocaleTimeString (Cases.run late_export mount)).
  { apply run_reachable, reach_mount. }
  split; [exact Reach|].
  exact (reachable_state_is_well_formed
           Sample.JSON_parse Sample.String_ Sample.JSON_stringify Sample.toLocaleTimeString
           (Cases.run late_export mount) Reach).
Defined.

(** X11, witness: the state an analysis with a [dbg] event leaves. *)
Lemma ref_stays_set_witness :
  streamingReceived after_analyze = true /\
  streamingReceived (Sample.runExport true (Body (map Chunk [export_without_dbg]))
                       after_analyze) = true.
Proof.
  split; [reflexivity|].
  exact (proj1 (proj2 (ref_stays_set
                         Sample.JSON_parse Sample.String_ Sample.JSON_stringify
                         Sample.toLocaleTimeString after_analyze eq_refl))
           true (Body (map Chunk [export_without_dbg]))).
Defined.

(** X13, witness: the first of three files dropped on the third. *)
Lemma onDrop_moves_one_witness :
  nth_error three_files 0 = Some (Some "a.pdf") /\
  2 < length three_files /\
  nth_error (Files.onDrop (Some (Z.of_nat 0)) 2 three_files) 2 = Some (Some "a.pdf") /\
  Files.handleRemoveOcr 2 (Files.onDrop (Some (Z.of_nat 0)) 2 three_files)
    = Files.handleRemoveOcr 0 three_files /\
  length (Files.onDrop (Some (Z.of_nat 0)) 2 three_files) = length three_files /\
  Permutation (Files.onDrop (Some (Z.of_nat 0)) 2 three_files) three_files.
Proof.
  assert (Hindex : 2 < length three_files) by (cbn; lia).
  split; [reflexivity|]. split; [exact Hindex|].
  exact (onDrop_moves_one 0 2 three_files (Some "a.pdf") eq_refl Hindex).
Defined.

(** X14, witness: the first of three files dropped on the third, and back. *)
Lemma onDrop_back_restores_witness :
  0 < length three_files /\
  2 < length three_files /\
  Files.onDrop (Some (Z.of_nat 2)) 0 (Files.onDrop (Some (Z.of_nat 0)) 2 three_files)
    = three_files.
Proof.
  assert (Hfrom : 0 < length three_files) by (cbn; lia).
  assert (Hindex : 2 < length three_files) by (cbn; lia).
  split; [exact Hfrom|]. split; [exact Hindex|].
  exact (onDrop_back_restores 0 2 three_files Hfrom Hindex).
Defined.

(** X15, witness: drag data that reads [7], dropped on the second of three
    files. *)
Lemma onDrop_foreign_number_witness :
  (Z.of_nat (length three_files) <= 7)%Z /\
  1 <= length three_files /\
  Files.onDrop (Some 7%Z) 1 three_files
    = firstn 1 three_files ++ None :: skipn 1 three_files.
Proof.
  assert (Hfrom : (Z.of_nat (length three_files) <= 7)%Z) by (cbn; lia).
  assert (Hindex : 1 <= length three_files) by (cbn; lia).
  split; [exact Hfrom|]. split; [exact Hindex|].
  exact (onDrop_foreign_number 7%Z 1 three_files Hfrom Hindex).
Defined.

(** X21, witness: a center id with a slash, a space and a percent sign. *)
Lemma route_round_trip_witness :
  Route.valid_utf8 center_id = true /\
  Route.currentCenterFromPath (Some (Route.handleChange center_id)) = Some center_id /\
  Route.decodeURIComponent (Route.encodeURIComponent center_id) = Some center_id.
Proof.
  split; [reflexivity|].
  exact (route_round_trip center_id eq_refl).
Defined.
